(** * Virtual Fitting Room: the try-on workflow and its backend adapter

    A shallow embedding of [src/services/geminiService.ts] (the adapter to the
    generative backend) and of the handlers of [src/App.tsx] (the workflow),
    with the statements the specification makes about them.

    JavaScript strings are sequences of UTF-16 code units; they are modelled
    as lists of code units so that [length], [substring], the classes [.] and
    [\s] of regular expressions and [trim] count and classify exactly as the
    engine does. *)

From Stdlib Require Import List String Ascii NArith ZArith Bool Lia
  DecimalString.
Import ListNotations.
Open Scope list_scope.

(** ** JavaScript strings *)

Module JsString.

Definition code_unit := N.
Definition jsstring := list code_unit.

(** A string literal of the source (ASCII text). *)
Definition str (s : string) : jsstring :=
  map N_of_ascii (list_ascii_of_string s).

(** The double quote, written apart: U+0022. *)
Definition dquote : jsstring := [34%N].

Fixpoint eqb (a b : jsstring) : bool :=
  match a, b with
  | [], [] => true
  | x :: a', y :: b' => N.eqb x y && eqb a' b'
  | _, _ => false
  end.

(** [s.length > 0], which is also the truthiness of a string. *)
Definition nonempty (s : jsstring) : bool :=
  match s with [] => false | _ :: _ => true end.

(** [s.startsWith(p)]; also the match of a literal pattern at a position. *)
Fixpoint starts_with (p s : jsstring) : bool :=
  match p, s with
  | [], _ => true
  | _ :: _, [] => false
  | x :: p', y :: s' => N.eqb x y && starts_with p' s'
  end.

(** ECMAScript LineTerminator: LF, CR, LS, PS. The class [.] of a regular
    expression without the [s] flag is its complement. *)
Definition is_line_terminator (c : code_unit) : bool :=
  (N.eqb c 10 || N.eqb c 13 || N.eqb c 8232 || N.eqb c 8233)%N.

Definition dot (c : code_unit) : bool := negb (is_line_terminator c).

(** ECMAScript WhiteSpace and LineTerminator: what [trim] strips and what
    [\s] matches. *)
Definition is_whitespace (c : code_unit) : bool :=
  (N.eqb c 9 || N.eqb c 10 || N.eqb c 11 || N.eqb c 12 || N.eqb c 13
   || N.eqb c 32 || N.eqb c 160 || N.eqb c 5760
   || (N.leb 8192 c && N.leb c 8202)
   || N.eqb c 8232 || N.eqb c 8233 || N.eqb c 8239 || N.eqb c 8287
   || N.eqb c 12288 || N.eqb c 65279)%N.

Fixpoint trim_start (s : jsstring) : jsstring :=
  match s with
  | c :: s' => if is_whitespace c then trim_start s' else s
  | [] => []
  end.

Definition trim_end (s : jsstring) : jsstring :=
  rev (trim_start (rev s)).

(** [s.trim()] *)
Definition trim (s : jsstring) : jsstring := trim_end (trim_start s).

(** [s.substring(0, n)] *)
Definition substring0 (n : nat) (s : jsstring) : jsstring := firstn n s.

(** Index of the first occurrence of [p] in [s]. *)
Fixpoint index_of (p s : jsstring) : option nat :=
  if starts_with p s then Some 0
  else match s with
       | [] => None
       | _ :: s' => option_map S (index_of p s')
       end.

(** [s.includes(p)] *)
Definition includes (p s : jsstring) : bool :=
  match index_of p s with Some _ => true | None => false end.

(** [s.replace(/OPEN[\s\S]*?CLOSE/g, "")] for literal [opening] and
    [closing]: scanning from the left, every match (the opening literal, the
    fewest code units of any kind, the first closing literal after it) is
    deleted and the scan resumes behind it. [skip] counts the code units of
    the current match still to be dropped. *)
Fixpoint remove_fenced_from (opening closing : jsstring) (skip : nat)
    (s : jsstring) : jsstring :=
  match s with
  | [] => []
  | c :: s' =>
      match skip with
      | S k => remove_fenced_from opening closing k s'
      | O =>
          if starts_with opening s then
            match index_of closing (skipn (List.length opening) s) with
            | Some j =>
                remove_fenced_from opening closing
                  (List.length opening + j + List.length closing - 1) s'
            | None => c :: remove_fenced_from opening closing 0 s'
            end
          else c :: remove_fenced_from opening closing 0 s'
      end
  end.

Definition remove_fenced (opening closing s : jsstring) : jsstring :=
  remove_fenced_from opening closing 0 s.

(** ASCII lower-casing, for a pattern with the [i] flag whose letters are
    ASCII: a code unit above 127 never canonicalizes to an ASCII letter. *)
Definition ascii_lower (c : code_unit) : code_unit :=
  if (N.leb 65 c && N.leb c 90)%N then (c + 32)%N else c.

(** [s.endsWith(p)] *)
Definition ends_with (p s : jsstring) : bool :=
  starts_with (rev p) (rev s).

(** [String(n)] for an integer-valued number [n]: its decimal digits (the
    exponent form starts at 10^21 only). *)
Definition Z_toString (z : Z) : jsstring :=
  str (NilZero.string_of_int (Z.to_int z)).

End JsString.
Export JsString.

(** ** JSON values and [JSON.parse] *)

Module Json.

(** A JSON number as the parser reads it:
    (-1)^negative * mantissa * 10^exponent, exactly. *)
Record JNumber := { negative : bool; mantissa : N; exponent : Z }.

#[local] Unset Elimination Schemes.
Inductive json :=
| JNull
| JBool (b : bool)
| JNum (n : JNumber)
| JStr (s : jsstring)
| JArr (items : list json)
| JObj (members : list (jsstring * json)).
#[local] Set Elimination Schemes.

Definition is_digit (c : code_unit) : bool := (N.leb 48 c && N.leb c 57)%N.

Definition hex_value (c : code_unit) : option N :=
  if is_digit c then Some (c - 48)%N
  else if (N.leb 97 c && N.leb c 102)%N then Some (c - 87)%N
  else if (N.leb 65 c && N.leb c 70)%N then Some (c - 55)%N
  else None.

(** JSON white space: space, tab, LF, CR. *)
Definition is_json_ws (c : code_unit) : bool :=
  (N.eqb c 32 || N.eqb c 9 || N.eqb c 10 || N.eqb c 13)%N.

Fixpoint skip_ws (s : jsstring) : jsstring :=
  match s with
  | c :: s' => if is_json_ws c then skip_ws s' else s
  | [] => []
  end.

(** The longest run of digits at the head of [s]: its value continuing
    [acc], its length and the rest. *)
Fixpoint lex_digits (s : jsstring) (acc : N) (len : nat)
    : N * nat * jsstring :=
  match s with
  | c :: s' =>
      if is_digit c then lex_digits s' (acc * 10 + (c - 48))%N (S len)
      else (acc, len, s)
  | [] => (acc, len, [])
  end.

(** The code unit an escape [\e] stands for. *)
Definition escape_value (e : code_unit) : option code_unit :=
  if N.eqb e 34 then Some 34%N
  else if N.eqb e 92 then Some 92%N
  else if N.eqb e 47 then Some 47%N
  else if N.eqb e 98 then Some 8%N
  else if N.eqb e 102 then Some 12%N
  else if N.eqb e 110 then Some 10%N
  else if N.eqb e 114 then Some 13%N
  else if N.eqb e 116 then Some 9%N
  else None.

(** The body of a string literal, behind its opening quote. *)
Fixpoint lex_string (s : jsstring) (acc : jsstring)
    : option (jsstring * jsstring) :=
  match s with
  | [] => None
  | c :: rest =>
      if N.eqb c 34 then Some (rev acc, rest)
      else if N.eqb c 92 then
        match rest with
        | [] => None
        | e :: rest' =>
            if N.eqb e 117 then
              match rest' with
              | a :: b :: c' :: d :: rest'' =>
                  match hex_value a, hex_value b, hex_value c', hex_value d
                  with
                  | Some x, Some y, Some z, Some w =>
                      lex_string rest''
                        ((((x * 16 + y) * 16 + z) * 16 + w)%N :: acc)
                  | _, _, _, _ => None
                  end
              | _ => None
              end
            else
              match escape_value e with
              | Some x => lex_string rest' (x :: acc)
              | None => None
              end
        end
      else if (c <? 32)%N then None
      else lex_string rest (c :: acc)
  end.

(** The digits of a fraction or of an exponent: at least one. *)
Definition lex_digits1 (s : jsstring) (acc : N)
    : option (N * nat * jsstring) :=
  let '(v, len, r) := lex_digits s acc 0 in
  if Nat.eqb len 0 then None else Some (v, len, r).

(** [frac?]: the mantissa with the digits of the fraction and their
    number. *)
Definition lex_fraction (int_part : N) (s : jsstring)
    : option (N * nat * jsstring) :=
  match s with
  | c :: r => if N.eqb c 46 then lex_digits1 r int_part
              else Some (int_part, 0, s)
  | [] => Some (int_part, 0, s)
  end.

(** [exp?]: the exponent. *)
Definition lex_exponent (s : jsstring) : option (Z * jsstring) :=
  match s with
  | c :: r =>
      if (N.eqb c 101 || N.eqb c 69)%N then
        let '(sign, digits) :=
          match r with
          | x :: r' => if N.eqb x 43 then (1%Z, r')
                       else if N.eqb x 45 then ((-1)%Z, r')
                       else (1%Z, r)
          | [] => (1%Z, r)
          end in
        match lex_digits1 digits 0%N with
        | Some (e, _, r') => Some ((sign * Z.of_N e)%Z, r')
        | None => None
        end
      else Some (0%Z, s)
  | [] => Some (0%Z, s)
  end.

(** [int frac? exp?], behind the optional minus sign. *)
Definition lex_number (neg : bool) (s : jsstring)
    : option (JNumber * jsstring) :=
  match s with
  | [] => None
  | c :: _ =>
      if negb (is_digit c) then None else
      let '(int_part, int_len, r1) := lex_digits s 0%N 0 in
      if N.eqb c 48 && Nat.ltb 1 int_len then
        (* no digit may follow a leading zero *)
        None
      else
        match lex_fraction int_part r1 with
        | None => None
        | Some (m, frac_len, r2) =>
            match lex_exponent r2 with
            | None => None
            | Some (e, r3) =>
                Some ({| negative := neg; mantissa := m;
                         exponent := e - Z.of_nat frac_len |}, r3)
            end
        end
  end.

(** A value that is neither an array nor an object; [s] starts at its first
    code unit. *)
Definition parse_scalar (s : jsstring) : option (json * jsstring) :=
  match s with
  | [] => None
  | c :: r =>
      if starts_with (str "null") s then Some (JNull, skipn 4 s)
      else if starts_with (str "true") s then Some (JBool true, skipn 4 s)
      else if starts_with (str "false") s then Some (JBool false, skipn 5 s)
      else if N.eqb c 34 then
        match lex_string r [] with
        | Some (text, r') => Some (JStr text, r')
        | None => None
        end
      else
        match (if N.eqb c 45 then lex_number true r else lex_number false s)
        with
        | Some (n, r') => Some (JNum n, r')
        | None => None
        end
  end.

(** Recursive descent over value, array elements and object members. Each
    call passes one unit of [fuel] down, and at least one code unit is
    consumed for every two units passed, so twice the length of the text is
    enough for any text ([JSON_parse_fuel] below). *)
Fixpoint parse_value (fuel : nat) (s : jsstring) {struct fuel}
    : option (json * jsstring) :=
  match fuel with
  | O => None
  | S f =>
      match skip_ws s with
      | [] => None
      | c :: r =>
          if N.eqb c 91 then
            match skip_ws r with
            | [] => None
            | c' :: r' =>
                if N.eqb c' 93 then Some (JArr [], r')
                else parse_elements f r []
            end
          else if N.eqb c 123 then
            match skip_ws r with
            | [] => None
            | c' :: r' =>
                if N.eqb c' 125 then Some (JObj [], r')
                else parse_members f r []
            end
          else parse_scalar (c :: r)
      end
  end
with parse_elements (fuel : nat) (s : jsstring) (acc : list json)
    {struct fuel} : option (json * jsstring) :=
  match fuel with
  | O => None
  | S f =>
      match parse_value f s with
      | None => None
      | Some (v, r) =>
          match skip_ws r with
          | [] => None
          | c :: r' =>
              if N.eqb c 44 then parse_elements f r' (v :: acc)
              else if N.eqb c 93 then Some (JArr (rev (v :: acc)), r')
              else None
          end
      end
  end
with parse_members (fuel : nat) (s : jsstring)
    (acc : list (jsstring * json)) {struct fuel}
    : option (json * jsstring) :=
  match fuel with
  | O => None
  | S f =>
      match skip_ws s with
      | [] => None
      | q :: r =>
          if negb (N.eqb q 34) then None else
          match lex_string r [] with
          | None => None
          | Some (key, r1) =>
              match skip_ws r1 with
              | [] => None
              | colon :: r2 =>
                  if negb (N.eqb colon 58) then None else
                  match parse_value f r2 with
                  | None => None
                  | Some (v, r3) =>
                      match skip_ws r3 with
                      | [] => None
                      | c :: r4 =>
                          if N.eqb c 44
                          then parse_members f r4 ((key, v) :: acc)
                          else if N.eqb c 125
                          then Some (JObj (rev ((key, v) :: acc)), r4)
                          else None
                      end
                  end
              end
          end
      end
  end.

(** [JSON.parse(text)]: [None] stands for the SyntaxError it throws. *)
Definition JSON_parse (text : jsstring) : option json :=
  match parse_value (2 * List.length text) text with
  | Some (v, r) => match skip_ws r with [] => Some v | _ :: _ => None end
  | None => None
  end.




(** The number rounds to a double other than zero: it exceeds half the
    least subnormal, 2^-1075 (a tie rounds to the even neighbour, zero). *)
Definition number_nonzero (n : JNumber) : bool :=
  if N.eqb (mantissa n) 0 then false
  else if (0 <=? exponent n)%Z then true
  else (10 ^ (- exponent n) <? Z.of_N (mantissa n) * 2 ^ 1075)%Z.

(** ToBoolean; [None] is [undefined]. *)
Definition truthy (v : option json) : bool :=
  match v with
  | None => false
  | Some JNull => false
  | Some (JBool b) => b
  | Some (JNum n) => number_nonzero n
  | Some (JStr s) => nonempty s
  | Some (JArr _) => true
  | Some (JObj _) => true
  end.

(** Own property [key] of a parsed object: of duplicate members the last one
    stands. *)
Fixpoint lookup_last (key : jsstring) (members : list (jsstring * json))
    : option json :=
  match members with
  | [] => None
  | (k, v) :: rest =>
      match lookup_last key rest with
      | Some v' => Some v'
      | None => if JsString.eqb key k then Some v else None
      end
  end.

(** [v.key] for a value [v] other than [null] and a [key] that no built-in
    prototype defines ([valid], [reason]): [None] is [undefined]. *)
Definition member (v : json) (key : jsstring) : option json :=
  match v with
  | JObj members => lookup_last key members
  | _ => None
  end.

(** ToString, as a template literal applies it. [print_number] is
    Number::toString on the double nearest to the literal. *)
Fixpoint to_string (print_number : JNumber -> jsstring) (v : json)
    : jsstring :=
  match v with
  | JNull => str "null"
  | JBool true => str "true"
  | JBool false => str "false"
  | JNum n => print_number n
  | JStr s => s
  | JArr items =>
      (* Array.prototype.join: null elements print as the empty string *)
      let element (x : json) :=
        match x with JNull => [] | _ => to_string print_number x end in
      (fix join (l : list json) : jsstring :=
         match l with
         | [] => []
         | [x] => element x
         | x :: l' => element x ++ str "," ++ join l'
         end) items
  | JObj _ => str "[object Object]"
  end.

End Json.
Export Json.

(** ** The data model ([types.ts]) *)

(** A [File]: only its name is ever read. *)
Record File := { name : jsstring }.

Record ImageFile := {
  file : File;
  previewUrl : jsstring;
  base64 : jsstring
}.

Inductive AppStatus := IDLE | PROCESSING | SUCCESS | ERROR.

Record Recommendation := {
  itemName : jsstring;
  category : jsstring;
  reason : jsstring;
  colorHex : jsstring
}.

(** [recommendations] holds what [JSON.parse] returned: the cast
    [as Recommendation[]] checks nothing. *)
Record GenerationResult := {
  imageUrl : option jsstring;
  feedback : option jsstring;
  recommendations : option json
}.

(** ['original' | number]; the number is the slider's integer. *)
Inductive Pose := original | degrees (n : Z).

(** ** The backend SDK *)

(** What [parseBase64] returns and a request carries as [inlineData]. *)
Record InlineData := { mimeType : jsstring; data : jsstring }.

#[local] Unset Elimination Schemes.
Inductive Schema :=
| SchemaObject (properties : list (jsstring * Schema))
| SchemaArray (items : Schema)
| SchemaBoolean
| SchemaString (description : option jsstring).
#[local] Set Elimination Schemes.

Record Config := {
  responseMimeType : option jsstring;
  responseSchema : option Schema;
  thinkingBudget : option Z
}.

Inductive RequestPart :=
| InlineDataPart (inlineData : InlineData)
| TextPart (text : jsstring).

Record Request := {
  model : jsstring;
  contents : list RequestPart;
  config : option Config
}.

(** A part of a response: every field is optional in the SDK's types. *)
Record Blob := { blob_mimeType : option jsstring; blob_data : option jsstring }.
Record Part := { part_inlineData : option Blob; part_text : option jsstring }.
Record Content := { parts : option (list Part) }.
Record Candidate := { content : option Content }.

(** [response_text] is the SDK's [text] accessor; it is kept apart from the
    candidates, so every combination the SDK can produce is covered. *)
Record Response := {
  candidates : option (list Candidate);
  response_text : option jsstring
}.

(** A thrown [Error]. *)
Record JsError := { message : jsstring }.

Definition new_Error (msg : jsstring) : JsError := {| message := msg |}.

Inductive Outcome :=
| Rejects (error : JsError)
| Responds (response : Response).

(** Everything outside the repository that a run of a handler depends on: the
    backend's answer to each request, the order in which concurrent promises
    settle, and the engine's own texts. *)
Record World := {
  generateContent : Request -> Outcome;
  settle_order : list nat;
  Number_toString : JNumber -> jsstring;
  TypeError_message : jsstring;
  SyntaxError_message : jsstring -> jsstring
}.

(** ** The state of the [App] component and its setters *)

Record AppState := {
  userImage : option ImageFile;
  clothingImage : option ImageFile;
  clothingModelUrl : option jsstring;
  instructions : jsstring;
  rotation : Z;
  useCustomRotation : bool;
  status : AppStatus;
  result : option GenerationResult;
  error : option jsstring
}.

Inductive Update :=
| setUserImage (v : option ImageFile)
| setClothingImage (v : option ImageFile)
| setClothingModelUrl (v : option jsstring)
| setInstructions (v : jsstring)
| setRotation (v : Z)
| setUseCustomRotation (v : bool)
| setStatus (v : AppStatus)
| setResult (v : option GenerationResult)
| setError (v : option jsstring).

Definition apply_update (st : AppState) (u : Update) : AppState :=
  match u with
  | setUserImage v =>
      {| userImage := v; clothingImage := clothingImage st;
         clothingModelUrl := clothingModelUrl st;
         instructions := instructions st; rotation := rotation st;
         useCustomRotation := useCustomRotation st; status := status st;
         result := result st; error := error st |}
  | setClothingImage v =>
      {| userImage := userImage st; clothingImage := v;
         clothingModelUrl := clothingModelUrl st;
         instructions := instructions st; rotation := rotation st;
         useCustomRotation := useCustomRotation st; status := status st;
         result := result st; error := error st |}
  | setClothingModelUrl v =>
      {| userImage := userImage st; clothingImage := clothingImage st;
         clothingModelUrl := v;
         instructions := instructions st; rotation := rotation st;
         useCustomRotation := useCustomRotation st; status := status st;
         result := result st; error := error st |}
  | setInstructions v =>
      {| userImage := userImage st; clothingImage := clothingImage st;
         clothingModelUrl := clothingModelUrl st;
         instructions := v; rotation := rotation st;
         useCustomRotation := useCustomRotation st; status := status st;
         result := result st; error := error st |}
  | setRotation v =>
      {| userImage := userImage st; clothingImage := clothingImage st;
         clothingModelUrl := clothingModelUrl st;
         instructions := instructions st; rotation := v;
         useCustomRotation := useCustomRotation st; status := status st;
         result := result st; error := error st |}
  | setUseCustomRotation v =>
      {| userImage := userImage st; clothingImage := clothingImage st;
         clothingModelUrl := clothingModelUrl st;
         instructions := instructions st; rotation := rotation st;
         useCustomRotation := v; status := status st;
         result := result st; error := error st |}
  | setStatus v =>
      {| userImage := userImage st; clothingImage := clothingImage st;
         clothingModelUrl := clothingModelUrl st;
         instructions := instructions st; rotation := rotation st;
         useCustomRotation := useCustomRotation st; status := v;
         result := result st; error := error st |}
  | setResult v =>
      {| userImage := userImage st; clothingImage := clothingImage st;
         clothingModelUrl := clothingModelUrl st;
         instructions := instructions st; rotation := rotation st;
         useCustomRotation := useCustomRotation st; status := status st;
         result := v; error := error st |}
  | setError v =>
      {| userImage := userImage st; clothingImage := clothingImage st;
         clothingModelUrl := clothingModelUrl st;
         instructions := instructions st; rotation := rotation st;
         useCustomRotation := useCustomRotation st; status := status st;
         result := result st; error := v |}
  end.

(** The state of the first render: the arguments of the [useState] calls. *)
Definition initial_state : AppState :=
  {| userImage := None; clothingImage := None; clothingModelUrl := None;
     instructions := []; rotation := 0; useCustomRotation := false;
     status := IDLE; result := None; error := None |}.

(** ** Asynchronous computations and their traces *)

(** A call of one of the five operations of the adapter, with its arguments. *)
Inductive Call :=
| validateClothingSafety_call (clothingImageBase64 : jsstring)
| generateStylistReview_call (userImageBase64 clothingImageBase64 : jsstring)
| generateTryOn_call (userImageBase64 clothingImageBase64 : jsstring)
    (instructions : jsstring) (pose : Pose)
| generateStyleRecommendations_call (clothingImageBase64 : jsstring)
| generateProductImage_call (recommendation : Recommendation).

Inductive LogLevel := warn | error_level.

Inductive LogArg :=
| LogText (s : jsstring)
| LogError (e : JsError).

(** What a run does, in program order. [Invoke] marks the entry into an
    operation of the adapter; the other events are what the code itself
    does to the backend, the console, the state and the window. *)
Inductive Event :=
| Invoke (c : Call)
| Backend (request : Request) (outcome : Outcome)
| Console (level : LogLevel) (args : list LogArg)
| SetState (u : Update)
| ScrollToTop.

Inductive Completion (A : Type) :=
| Normal (a : A)
| Throw (e : JsError).
Arguments Normal {A} a.
Arguments Throw {A} e.

(** An [async] function, run to its settlement in a given world: the events
    it performed and how the promise settled ([Throw]: rejected). *)
Definition Async (A : Type) : Type := World -> list Event * Completion A.

Definition ret {A} (a : A) : Async A := fun _ => ([], Normal a).

Definition throw {A} (e : JsError) : Async A := fun _ => ([], Throw e).

Definition bind {A B} (m : Async A) (k : A -> Async B) : Async B :=
  fun w =>
    match m w with
    | (t, Normal a) => let (t', r) := k a w in (t ++ t', r)
    | (t, Throw e) => (t, Throw e)
    end.

(** [try { body } catch (e) { handler }] *)
Definition try_catch {A} (body : Async A) (handler : JsError -> Async A)
    : Async A :=
  fun w =>
    match body w with
    | (t, Normal a) => (t, Normal a)
    | (t, Throw e) => let (t', r) := handler e w in (t ++ t', r)
    end.

Definition emit (e : Event) : Async unit := fun _ => ([e], Normal tt).

Definition ask : Async World := fun w => ([], Normal w).

Definition lift {A} (c : Completion A) : Async A := fun _ => ([], c).

Notation "x <- m ;; k" := (bind m (fun x => k))
  (at level 61, m at next level, right associativity).
Notation "m ;; k" := (bind m (fun _ => k))
  (at level 61, right associativity).
Notation "' pat <- m ;; k" :=
  (bind m (fun x => match x with pat => k end))
  (at level 61, pat pattern, m at next level, right associativity).

Definition trace {A} (m : Async A) (w : World) : list Event := fst (m w).
Definition outcome_of {A} (m : Async A) (w : World) : Completion A :=
  snd (m w).

(** [await ai.models.generateContent(request)] *)
Definition generateContent_await (request : Request) : Async Response :=
  fun w =>
    let o := generateContent w request in
    ([Backend request o],
     match o with Rejects e => Throw e | Responds r => Normal r end).

Definition console (level : LogLevel) (args : list LogArg) : Async unit :=
  emit (Console level args).

Definition set_state (u : Update) : Async unit := emit (SetState u).

(** The first of [slots] holding a rejection, going through [order]. *)
Fixpoint first_rejection (order : list nat) (slots : list (option JsError))
    : option JsError :=
  match order with
  | [] => None
  | i :: rest =>
      match nth i slots None with
      | Some e => Some e
      | None => first_rejection rest slots
      end
  end.

Definition rejection {A} (c : Completion A) : option JsError :=
  match c with Normal _ => None | Throw e => Some e end.

(** [await Promise.all([a, b, c])]: the three calls are made in the order of
    the array, each running to its settlement; the result is the triple when
    all three fulfil, and otherwise the rejection that settles first in the
    world's [settle_order]. Each task's events are listed together. *)
Definition Promise_all3 {A B C} (a : Async A) (b : Async B) (c : Async C)
    : Async (A * B * C) :=
  fun w =>
    let (ta, ra) := a w in
    let (tb, rb) := b w in
    let (tc, rc) := c w in
    (ta ++ tb ++ tc,
     match ra, rb, rc with
     | Normal x, Normal y, Normal z => Normal (x, y, z)
     | _, _, _ =>
         match first_rejection (settle_order w ++ [0; 1; 2])
                 [rejection ra; rejection rb; rejection rc] with
         | Some e => Throw e
         | None => Throw (new_Error [])
         end
     end).

(** ** The adapter to the backend ([services/geminiService.ts]) *)

(** The backtracking matcher of the engine, for the pieces of the pattern
    [/^data:(.+);base64,(.+)$/]. A piece takes the input left and a
    continuation for the rest of the pattern; [None] makes the caller try its
    next alternative. *)

(** A literal. *)
Definition literal {R} (p s : jsstring) (k : jsstring -> option R)
    : option R :=
  if starts_with p s then k (skipn (List.length p) s) else None.

(** The group [(.+)]: one or more code units other than line terminators,
    greedily, so the longer capture is tried before the shorter one. The
    continuation receives the capture and the input left. *)
Fixpoint greedy_dots {R} (s : jsstring)
    (k : jsstring -> jsstring -> option R) : option R :=
  match s with
  | [] => None
  | c :: s' =>
      if dot c then
        match greedy_dots s' (fun capture rest => k (c :: capture) rest) with
        | Some r => Some r
        | None => k [c] s'
        end
      else None
  end.

(** [$] without the [m] flag: the end of the input. *)
Definition at_end {R} (s : jsstring) (r : R) : option R :=
  match s with [] => Some r | _ :: _ => None end.

(** [dataUrl.match(/^data:(.+);base64,(.+)$/)]: the match array
    [whole; group 1; group 2], or [None] for [null]. The pattern is anchored
    at the start, so the match is attempted at index 0 only. *)
Definition match_data_url (dataUrl : jsstring) : option (list jsstring) :=
  literal (str "data:") dataUrl (fun s1 =>
    greedy_dots s1 (fun group1 s2 =>
      literal (str ";base64,") s2 (fun s3 =>
        greedy_dots s3 (fun group2 s4 =>
          at_end s4 [dataUrl; group1; group2])))).

Definition parseBase64 (dataUrl : jsstring) : Completion InlineData :=
  match match_data_url dataUrl with
  | None => Throw (new_Error (str "Invalid base64 string provided."))
  | Some matches =>
      if negb (Nat.eqb (List.length matches) 3) then
        Throw (new_Error (str "Invalid base64 string provided."))
      else
        Normal {| mimeType := nth 1 matches []; data := nth 2 matches [] |}
  end.

Definition safety_prompt : jsstring :=
  str "
    Analyze this image strictly for an e-commerce virtual try-on application.
    
    Security & Policy Check:
    1. Is this image a piece of clothing or a fashion accessory?
    2. Is the content SAFE and APPROPRIATE for a general audience?
    3. STRICTLY PROHIBITED: Lingerie, Underwear, Swimwear, Bikinis, Hate Symbols, Nudity, or Realistic Weapons.
    
    Return JSON with:
    - valid (boolean): true if safe and is clothing. false otherwise.
    - reason (string): Short explanation if invalid.
  ".

Definition tryOn_prompt_head : jsstring :=
  str "
    Generate a photorealistic image of the person in the first image wearing the garment in the second image.
    
    STRICT REQUIREMENTS:
    1. Retain the exact identity, face, hair, body shape, and skin tone of the person in the first image.
    2. Retain the background and lighting of the first image exactly.
    3. Replace the person's original clothing with the garment from the second image. The fit should be natural and realistic.
    ".

Definition tryOn_prompt_middle : jsstring :=
  str "
    ".

Definition tryOn_prompt_tail : jsstring :=
  str "
    
    OUTPUT:
    - Return ONLY the generated image.
    - DO NOT return JSON, XML, or conversational text.
    - DO NOT describe the task.
  ".

Definition product_prompt_head : jsstring :=
  str "
    Generate a professional e-commerce product image of: ".

Definition product_prompt_tail : jsstring :=
  str ").
    Style: Isolated on a pure white background, studio lighting, high resolution, realistic texture.
    View: Front facing, clear details.
    
    OUTPUT:
    - Return ONLY the generated image.
    - DO NOT return text.
  ".

(** [response.candidates?.[0]?.content?.parts || []] *)
Definition response_parts (response : Response) : list Part :=
  match candidates response with
  | Some (first :: _) =>
      match content first with
      | Some c => match parts c with Some ps => ps | None => [] end
      | None => []
      end
  | _ => []
  end.

(** Truthiness of an optional string: neither [undefined] nor empty. *)
Definition truthy_text (t : option jsstring) : bool :=
  match t with Some s => nonempty s | None => false end.

(** A string or [undefined] inside a template literal. *)
Definition text_or_undefined (t : option jsstring) : jsstring :=
  match t with Some s => s | None => str "undefined" end.

(** [parts.find(p => p.text)?.text] *)
Definition find_text (ps : list Part) : option jsstring :=
  match find (fun p => truthy_text (part_text p)) ps with
  | Some p => part_text p
  | None => None
  end.

Definition json_config (schema : Schema) : Config :=
  {| responseMimeType := Some (str "application/json");
     responseSchema := Some schema;
     thinkingBudget := Some 1024%Z |}.

Definition safety_request (clothingImage : InlineData) : Request :=
  {| model := str "gemini-3-flash-preview";
     contents := [InlineDataPart clothingImage; TextPart safety_prompt];
     config := Some (json_config
       (SchemaObject [(str "valid", SchemaBoolean);
                      (str "reason", SchemaString None)])) |}.

(** The default verdict of the gate. *)
Definition unverified : json :=
  JObj [(str "valid", JBool false);
        (str "reason", JStr (str "Unable to verify image safety."))].

Definition service_unavailable : JsError :=
  new_Error (str "Security validation service is currently unavailable.").

(** [JSON.parse(text)], throwing the engine's SyntaxError. *)
Definition JSON_parse_or_throw (text : jsstring) : Async json :=
  w <- ask ;;
  match JSON_parse text with
  | Some v => ret v
  | None => throw (new_Error (SyntaxError_message w text))
  end.

(** The constructor [new GoogleGenAI] only stores its options. *)
Definition validateClothingSafety (clothingImageBase64 : jsstring)
    : Async json :=
  emit (Invoke (validateClothingSafety_call clothingImageBase64)) ;;
  clothingImage <- lift (parseBase64 clothingImageBase64) ;;
  try_catch (
    response <- generateContent_await (safety_request clothingImage) ;;
    if truthy_text (response_text response) then
      JSON_parse_or_throw (text_or_undefined (response_text response))
    else
      (* Default fallback if JSON parsing fails but no error thrown *)
      ret unverified
  ) (fun error =>
    console error_level [LogText (str "Safety Check Error:"); LogError error] ;;
    (* Fail safe: if we can't check, we don't allow it. *)
    throw service_unavailable).

Definition review_prompt : jsstring :=
  str "Act as a professional fashion stylist. Analyze how this garment would look on the person. Think step-by-step about the fit, color theory, and style compatibility. Provide a 1-2 sentence positive, sophisticated comment on the final look. Do not describe the technical generation process.".

Definition review_request (userImage clothingImage : InlineData) : Request :=
  {| model := str "gemini-3-flash-preview";
     contents := [InlineDataPart userImage; InlineDataPart clothingImage;
                  TextPart review_prompt];
     config := Some {| responseMimeType := None; responseSchema := None;
                       thinkingBudget := Some 1024%Z |} |}.

(** What the stylist says when the backend answers without text. *)
Definition review_default : jsstring :=
  str "A sophisticated choice that complements your style perfectly.".

(** What the stylist says when the backend call fails. *)
Definition review_fallback : jsstring :=
  str "This look is bold and stylish!".

Definition generateStylistReview (userImageBase64 clothingImageBase64 : jsstring)
    : Async jsstring :=
  emit (Invoke (generateStylistReview_call userImageBase64
                  clothingImageBase64)) ;;
  userImage <- lift (parseBase64 userImageBase64) ;;
  clothingImage <- lift (parseBase64 clothingImageBase64) ;;
  try_catch (
    response <- generateContent_await
                  (review_request userImage clothingImage) ;;
    ret (if truthy_text (response_text response)
         then text_or_undefined (response_text response)
         else review_default)
  ) (fun error =>
    console warn [LogText (str "Stylist review failed"); LogError error] ;;
    ret review_fallback).

(** The fourth and fifth requirement of the try-on directive. *)
Definition pose_directive (pose : Pose) : jsstring :=
  match pose with
  | degrees n =>
      str "4. ATTENTION: Rotate the person to a " ++ Z_toString n
        ++ str " degree view."
  | original => str "4. Maintain the exact original pose."
  end.

Definition instructions_directive (instructions : jsstring) : jsstring :=
  if nonempty instructions
  then str "5. Additional Instructions: " ++ instructions
  else [].

Definition tryOn_prompt (instructions : jsstring) (pose : Pose) : jsstring :=
  tryOn_prompt_head ++ pose_directive pose ++ tryOn_prompt_middle
    ++ instructions_directive instructions ++ tryOn_prompt_tail.

Definition tryOn_request (userImage clothingImage : InlineData)
    (instructions : jsstring) (pose : Pose) : Request :=
  {| model := str "gemini-2.5-flash-image";
     contents := [InlineDataPart userImage; InlineDataPart clothingImage;
                  TextPart (tryOn_prompt instructions pose)];
     config := None |}.

Definition png_url (blob : Blob) : jsstring :=
  str "data:image/png;base64," ++ text_or_undefined (blob_data blob).

(** The loop over the parts: every part with [inlineData] overwrites
    [imageUrl]. *)
Definition scan_image (imageUrl : option jsstring) (part : Part)
    : option jsstring :=
  match part_inlineData part with
  | Some blob => Some (png_url blob)
  | None => imageUrl
  end.

Definition refusal_message (cleanFeedback : jsstring) : jsstring :=
  str "The model could not generate the image. Message: " ++ dquote
    ++ substring0 100 cleanFeedback ++ str "..." ++ dquote.

Definition no_image_message : jsstring :=
  str "The model did not return an image. Please try a different photo or clothing item.".

(** [e.message || fallback] *)
Definition message_or (e : JsError) (fallback : jsstring) : jsstring :=
  if nonempty (message e) then message e else fallback.

Record TryOnResult := { tryOn_imageUrl : jsstring }.

Definition generateTryOn (userImageBase64 clothingImageBase64 : jsstring)
    (instructions : jsstring) (pose : Pose) : Async TryOnResult :=
  emit (Invoke (generateTryOn_call userImageBase64 clothingImageBase64
                  instructions pose)) ;;
  userImage <- lift (parseBase64 userImageBase64) ;;
  clothingImage <- lift (parseBase64 clothingImageBase64) ;;
  try_catch (
    response <- generateContent_await
                  (tryOn_request userImage clothingImage instructions pose) ;;
    let parts := response_parts response in
    let imageUrl := fold_left scan_image parts None in
    if truthy_text imageUrl then
      ret {| tryOn_imageUrl := text_or_undefined imageUrl |}
    else
      (* Check for textual refusal or error *)
      (match find_text parts with
       | Some textPart =>
           console warn [LogText (str "Model returned text but no image:");
                         LogText textPart] ;;
           let cleanFeedback :=
             trim (remove_fenced (str "```json") (str "```") textPart) in
           if Nat.ltb 0 (List.length cleanFeedback)
           then throw (new_Error (refusal_message cleanFeedback))
           else ret tt
       | None => ret tt
       end) ;;
      throw (new_Error no_image_message)
  ) (fun error =>
    console error_level [LogText (str "Gemini Try-On Error:");
                         LogError error] ;;
    throw (new_Error
             (message_or error (str "Failed to process virtual try-on.")))).

Definition recommendations_prompt : jsstring :=
  str "Analyze this clothing item. Think about fashion trends and color coordination to suggest 3 matching items (e.g., shoes, accessories, bottoms) to complete the outfit. Provide the 'colorHex' for each item to visually represent it. Return the result as a JSON array.".

Definition recommendations_request (clothingImage : InlineData) : Request :=
  {| model := str "gemini-3-flash-preview";
     contents := [InlineDataPart clothingImage;
                  TextPart recommendations_prompt];
     config := Some (json_config
       (SchemaArray
          (SchemaObject
             [(str "itemName", SchemaString None);
              (str "category", SchemaString None);
              (str "reason", SchemaString None);
              (str "colorHex",
               SchemaString
                 (Some (str "A hex color code representing the suggested item.")))]))) |}.

Definition generateStyleRecommendations (clothingImageBase64 : jsstring)
    : Async json :=
  emit (Invoke (generateStyleRecommendations_call clothingImageBase64)) ;;
  clothingImage <- lift (parseBase64 clothingImageBase64) ;;
  try_catch (
    response <- generateContent_await
                  (recommendations_request clothingImage) ;;
    if truthy_text (response_text response) then
      JSON_parse_or_throw (text_or_undefined (response_text response))
    else
      ret (JArr [])
  ) (fun error =>
    console error_level [LogText (str "Gemini Recommendation Error:");
                         LogError error] ;;
    (* Return empty array on failure rather than blocking the UI *)
    ret (JArr [])).

Definition product_prompt (recommendation : Recommendation) : jsstring :=
  product_prompt_head ++ colorHex recommendation ++ str " "
    ++ itemName recommendation ++ str " (" ++ category recommendation
    ++ product_prompt_tail.

Definition product_request (recommendation : Recommendation) : Request :=
  {| model := str "gemini-2.5-flash-image";
     contents := [TextPart (product_prompt recommendation)];
     config := None |}.

(** The loop over the parts returns at the first part with [inlineData]. *)
Definition first_image (ps : list Part) : option jsstring :=
  match find (fun p => match part_inlineData p with
                       | Some _ => true
                       | None => false
                       end) ps with
  | Some p => option_map png_url (part_inlineData p)
  | None => None
  end.

Definition returned_text_message (cleanText : jsstring) : jsstring :=
  str "Model returned text: " ++ substring0 50 cleanText ++ str "...".

Definition visualization_failed : JsError :=
  new_Error (str "Failed to visualize the recommended item.").

Definition generateProductImage (recommendation : Recommendation)
    : Async jsstring :=
  emit (Invoke (generateProductImage_call recommendation)) ;;
  try_catch (
    response <- generateContent_await (product_request recommendation) ;;
    let parts := response_parts response in
    match first_image parts with
    | Some url => ret url
    | None =>
        (* If text is returned instead *)
        (match find_text parts with
         | Some textPart =>
             console warn [LogText (str "Product gen returned text:");
                           LogText textPart] ;;
             let cleanText :=
               trim (remove_fenced (str "```") (str "```") textPart) in
             throw (new_Error (returned_text_message cleanText))
         | None => ret tt
         end) ;;
        throw (new_Error (str "No image generated"))
    end
  ) (fun error =>
    console error_level [LogText (str "Product Generation Error:");
                         LogError error] ;;
    throw visualization_failed).

(** ** The handlers of the workflow ([App.tsx]) *)

(** [safetyCheck.valid], a TypeError when the verdict is [null]. *)
Definition read_member (v : json) (key : jsstring) : Async (option json) :=
  w <- ask ;;
  match v with
  | JNull => throw (new_Error (TypeError_message w))
  | _ => ret (member v key)
  end.

(** [safetyCheck.reason || "..."] inside the template literal. *)
Definition safety_alert (w : World) (reason : option json) : jsstring :=
  str "Safety Alert: " ++
  match reason with
  | Some r =>
      if truthy reason then to_string (Number_toString w) r
      else str "This image cannot be processed due to safety guidelines."
  | None => str "This image cannot be processed due to safety guidelines."
  end.

(** [const pose: Pose = useCustomRotation ? rotation : 'original'] *)
Definition selected_pose (st : AppState) : Pose :=
  if useCustomRotation st then degrees (rotation st) else original.

(** The handler closes over the state [st] of the render it belongs to. *)
Definition handleTryOn (st : AppState) : Async unit :=
  match userImage st, clothingImage st with
  | Some user, Some clothing =>
      set_state (setStatus PROCESSING) ;;
      set_state (setError None) ;;
      set_state (setResult None) ;;
      let pose := selected_pose st in
      try_catch (
        safetyCheck <- validateClothingSafety (base64 clothing) ;;
        valid <- read_member safetyCheck (str "valid") ;;
        (if negb (truthy valid) then
           w <- ask ;;
           why <- read_member safetyCheck (str "reason") ;;
           throw (new_Error (safety_alert w why))
         else ret tt) ;;
        (* Execute all generation tasks in parallel for speed *)
        '(tryOnResult, recs, stylistReview) <-
          Promise_all3
            (generateTryOn (base64 user) (base64 clothing)
               (instructions st) pose)
            (generateStyleRecommendations (base64 clothing))
            (generateStylistReview (base64 user) (base64 clothing)) ;;
        set_state (setResult (Some {|
          imageUrl := Some (tryOn_imageUrl tryOnResult);
          recommendations := Some recs;
          feedback := Some stylistReview |})) ;;
        set_state (setStatus SUCCESS)
      ) (fun err =>
        console error_level [LogError err] ;;
        set_state (setError (Some
          (message_or err (str "Failed to process the virtual try-on.")))) ;;
        set_state (setStatus ERROR))
  | _, _ => ret tt
  end.

Definition handleReset : Async unit :=
  set_state (setStatus IDLE) ;;
  set_state (setResult None) ;;
  set_state (setError None).

Definition visualize_error : jsstring :=
  str "Could not visualize item. Please try again.".

Definition handleApplyRecommendation (rec : Recommendation) : Async unit :=
  set_state (setStatus PROCESSING) ;;
  try_catch (
    base64Image <- generateProductImage rec ;;
    let newFile :=
      {| file := {| name := itemName rec ++ str ".png" |};
         previewUrl := base64Image;
         base64 := base64Image |} in
    set_state (setClothingImage (Some newFile)) ;;
    set_state (setClothingModelUrl None) ;;
    set_state (setInstructions
                 (str "Trying on " ++ colorHex rec ++ str " " ++ itemName rec)) ;;
    set_state (setResult None) ;;
    set_state (setStatus IDLE) ;;
    emit ScrollToTop
  ) (fun err =>
    set_state (setError (Some visualize_error)) ;;
    set_state (setStatus IDLE)).

(** [name.match(/\.(glb|gltf)$/i)] *)
Definition is_model_name (name : jsstring) : bool :=
  let lower := map ascii_lower name in
  ends_with (str ".glb") lower || ends_with (str ".gltf") lower.

Definition handleClothingUpload (fileData : option ImageFile) : Async unit :=
  match fileData with
  | None =>
      set_state (setClothingImage None) ;;
      set_state (setClothingModelUrl None)
  | Some f =>
      if is_model_name (name (file f)) then
        set_state (setClothingModelUrl (Some (previewUrl f))) ;;
        set_state (setClothingImage None)
      else
        set_state (setClothingModelUrl None) ;;
        set_state (setClothingImage fileData)
  end.

Definition handle3DSnapshot (base64Data : jsstring) : Async unit :=
  set_state (setClothingImage (Some
    {| file := {| name := str "snapshot.png" |};
       previewUrl := base64Data;
       base64 := base64Data |})).

Definition clearClothing : Async unit :=
  set_state (setClothingImage None) ;;
  set_state (setClothingModelUrl None).

(** [userImage !== null && clothingImage !== null] *)
Definition isFormValid (st : AppState) : bool :=
  match userImage st, clothingImage st with
  | Some _, Some _ => true
  | _, _ => false
  end.

(** ** The component as a system of events *)

(** The value a range control with [min="0"], [max="360"] and the default
    step reports when the user asks for [raw]: the browser keeps it within
    the two bounds, both included. *)
Definition range_value (raw : Z) : Z := Z.max 0 (Z.min 360 raw).

Inductive UiEvent :=
| UserImageChange (image : option ImageFile)
| ClothingImageChange (image : option ImageFile)
| Capture (base64Data : jsstring)
| ClearClothingClick
| AdvancedSettingsClick
| RotationChange (raw : Z)
| InstructionsChange (value : jsstring)
| GenerateClick
| ResetClick
| RecommendationClick (rec : Recommendation).

Definition status_eqb (a b : AppStatus) : bool :=
  match a, b with
  | IDLE, IDLE | PROCESSING, PROCESSING | SUCCESS, SUCCESS | ERROR, ERROR =>
      true
  | _, _ => false
  end.

(** What an event runs in the component rendered from [st]: the element that
    raises it must be rendered and enabled, otherwise nothing runs. A
    recommendation may be clicked whenever the result is displayed. *)
Definition handler_of (st : AppState) (e : UiEvent) : Async unit :=
  match e with
  | UserImageChange image => set_state (setUserImage image)
  | ClothingImageChange image =>
      if truthy_text (clothingModelUrl st) then ret tt
      else handleClothingUpload image
  | Capture base64Data =>
      if truthy_text (clothingModelUrl st) then handle3DSnapshot base64Data
      else ret tt
  | ClearClothingClick =>
      if truthy_text (clothingModelUrl st) then clearClothing else ret tt
  | AdvancedSettingsClick =>
      set_state (setUseCustomRotation (negb (useCustomRotation st)))
  | RotationChange raw =>
      if useCustomRotation st then set_state (setRotation (range_value raw))
      else ret tt
  | InstructionsChange value => set_state (setInstructions value)
  | GenerateClick =>
      if negb (isFormValid st) || status_eqb (status st) PROCESSING
      then ret tt
      else handleTryOn st
  | ResetClick =>
      if status_eqb (status st) ERROR || status_eqb (status st) SUCCESS
      then handleReset
      else ret tt
  | RecommendationClick rec =>
      if status_eqb (status st) SUCCESS then handleApplyRecommendation rec
      else ret tt
  end.

Definition apply_event (st : AppState) (e : Event) : AppState :=
  match e with
  | SetState u => apply_update st u
  | _ => st
  end.

(** The state after a handler has run to its end with nothing in between. *)
Definition run_handler (h : Async unit) (w : World) (st : AppState)
    : AppState :=
  fold_left apply_event (trace h w) st.

(** A handler in flight: the state it closed over and what it has still to
    do. *)
Record Task := { captured : AppState; pending : list Event }.

(** [history] pairs every event performed with the state its handler closed
    over. *)
Record System := {
  current : AppState;
  tasks : list Task;
  history : list (AppState * Event)
}.

Inductive Action :=
| Fire (e : UiEvent) (w : World)
| Advance (i : nat).

Fixpoint advance_task (i : nat) (ts : list Task)
    : option (AppState * Event) * list Task :=
  match ts, i with
  | [], _ => (None, [])
  | t :: ts', O =>
      match pending t with
      | [] => (None, ts')
      | e :: rest =>
          (Some (captured t, e),
           {| captured := captured t; pending := rest |} :: ts')
      end
  | t :: ts', S j =>
      let (r, ts'') := advance_task j ts' in (r, t :: ts'')
  end.

(** [Fire]: the event's handler is started on the current state, in the
    world that will answer it. [Advance i]: the i-th handler in flight
    performs its next event. Handlers interleave event by event, which
    covers every order in which their awaits may resume. *)
Definition sys_step (s : System) (a : Action) : System :=
  match a with
  | Fire e w =>
      {| current := current s;
         tasks := tasks s ++
                  [{| captured := current s;
                      pending := trace (handler_of (current s) e) w |}];
         history := history s |}
  | Advance i =>
      match advance_task i (tasks s) with
      | (Some (c, e), ts) =>
          {| current := apply_event (current s) e;
             tasks := ts;
             history := history s ++ [(c, e)] |}
      | (None, ts) =>
          {| current := current s; tasks := ts; history := history s |}
      end
  end.

Definition initial_system : System :=
  {| current := initial_state; tasks := []; history := [] |}.

Definition run (actions : list Action) : System :=
  fold_left sys_step actions initial_system.

(** ** Sample worlds and inputs *)

Module Sample.

Inductive Kind := Safety | Review | TryOn | Recs | Product.

(** Which of the five requests [r] is, read off its shape. *)
Definition kind_of (r : Request) : Kind :=
  match contents r, config r with
  | [TextPart _], _ => Product
  | [InlineDataPart _; TextPart _], Some c =>
      match responseSchema c with
      | Some (SchemaArray _) => Recs
      | _ => Safety
      end
  | [InlineDataPart _; InlineDataPart _; TextPart _], Some _ => Review
  | _, _ => TryOn
  end.

(** Sample JSON texts are written with ['] for the double quote. *)
Definition json_text (s : string) : jsstring :=
  map (fun c => if N.eqb c 39 then 34%N else c) (str s).

Definition text_response (t : jsstring) : Outcome :=
  Responds {| candidates := None; response_text := Some t |}.

Definition parts_response (ps : list Part) : Outcome :=
  Responds {| candidates := Some [{| content := Some {| parts := Some ps |} |}];
              response_text := None |}.

Definition image_part (mime payload : string) : Part :=
  {| part_inlineData := Some {| blob_mimeType := Some (str mime);
                                blob_data := Some (str payload) |};
     part_text := None |}.

Definition text_part (t : string) : Part :=
  {| part_inlineData := None; part_text := Some (str t) |}.

(** A world given by the backend's answer to each kind of request. The
    engine's texts are those of V8; no sample prints a number. *)
Definition world (answer : Kind -> Outcome) : World :=
  {| generateContent := fun r => answer (kind_of r);
     settle_order := [];
     Number_toString := fun _ => [];
     TypeError_message :=
       str "Cannot read properties of null (reading 'valid')";
     SyntaxError_message := fun _ => str "Unexpected token" |}.

Definition outage : Outcome := Rejects (new_Error (str "503"))%string.

Definition person : ImageFile :=
  {| file := {| name := str "me.png" |};
     previewUrl := str "blob:1";
     base64 := str "data:image/png;base64,AAAA" |}.

Definition garment : ImageFile :=
  {| file := {| name := str "shirt.jpg" |};
     previewUrl := str "blob:2";
     base64 := str "data:image/jpeg;base64,BBBB" |}.

Definition ready : AppState :=
  apply_update (apply_update initial_state (setUserImage (Some person)))
    (setClothingImage (Some garment)).

Definition scarf : Recommendation :=
  {| itemName := str "Silk Scarf"; category := str "Accessory";
     reason := str "Adds contrast"; colorHex := str "#AA3311" |}.

(** Everything works: the gate accepts, an image, three items, a comment. *)
Definition all_fine (k : Kind) : Outcome :=
  match k with
  | Safety => text_response (json_text "{ 'valid': true }")
  | Review => text_response (str "Lovely.")
  | TryOn => parts_response [image_part "image/jpeg" "CCCC"]
  | Recs => text_response (json_text "[{'itemName':'Silk Scarf'}]")
  | Product => parts_response [image_part "image/png" "DDDD"]
  end.

(** The gate refuses the garment. *)
Definition swimwear (k : Kind) : Outcome :=
  match k with
  | Safety =>
    text_response
      (json_text "{ 'valid': false, 'reason': 'contains swimwear' }")
  | _ => all_fine k
  end.

(** The gate answers in prose. *)
Definition chatty_gate (k : Kind) : Outcome :=
  match k with
  | Safety => text_response (str "Sorry, I cannot judge this image.")
  | _ => all_fine k
  end.

(** The gate answers without text. *)
Definition silent_gate (k : Kind) : Outcome :=
  match k with
  | Safety => Responds {| candidates := None; response_text := None |}
  | _ => all_fine k
  end.

(** The backend is down. *)
Definition everything_down (k : Kind) : Outcome := outage.

(** The try-on is refused in words. *)
Definition refused (k : Kind) : Outcome :=
  match k with
  | TryOn => parts_response [text_part "I can't do that"]
  | _ => all_fine k
  end.

(** The image comes, the two supplementary calls fail. *)
Definition degraded (k : Kind) : Outcome :=
  match k with
  | Review | Recs => outage
  | _ => all_fine k
  end.

(** The image comes, the review fails and the recommendations come as prose
    instead of JSON. *)
Definition garbled (k : Kind) : Outcome :=
  match k with
  | Review => outage
  | Recs => text_response (str "Here are three ideas for you:")
  | _ => all_fine k
  end.

(** The try-on returns two images around a remark. *)
Definition two_images (k : Kind) : Outcome :=
  match k with
  | TryOn =>
    parts_response [image_part "image/jpeg" "FIRST"; text_part "here";
                    image_part "image/webp" "LAST"]
  | _ => all_fine k
  end.

Definition two_images_response : Response :=
  {| candidates :=
     Some [{| content := Some {| parts :=
       Some [image_part "image/jpeg" "FIRST"; text_part "here";
             image_part "image/webp" "LAST"] |} |}];
   response_text := None |}.

(** The product image is refused in words. *)
Definition product_refused (k : Kind) : Outcome :=
  match k with
  | Product => parts_response [text_part "I cannot draw that."]
  | _ => all_fine k
  end.

Definition person_data : InlineData :=
  {| mimeType := str "image/png"; data := str "AAAA" |}.

Definition garment_data : InlineData :=
  {| mimeType := str "image/jpeg"; data := str "BBBB" |}.

(** The user loads both images, opens the advanced settings, drags the
    slider to its right end and asks for the look; every handler runs to its
    end before the next event. *)
Definition full_turn : list Action :=
  [Fire (UserImageChange (Some person)) (world all_fine); Advance 0; Advance 0;
 Fire (ClothingImageChange (Some garment)) (world all_fine);
 Advance 0; Advance 0; Advance 0;
 Fire AdvancedSettingsClick (world all_fine); Advance 0; Advance 0;
 Fire (RotationChange 360) (world all_fine); Advance 0; Advance 0;
 Fire GenerateClick (world all_fine)]
  ++ repeat (Advance 0) 14.

(** The state in which the look is asked for in [full_turn]. *)
Definition turned : AppState :=
  {| userImage := Some person; clothingImage := Some garment;
   clothingModelUrl := None; instructions := []; rotation := 360;
   useCustomRotation := true; status := IDLE; result := None;
   error := None |}.

End Sample.

(** ** The vocabulary of the statements *)

(** The shape [data:<mime>;base64,<payload>] in the specification's words:
    the scheme, a media type, the separator and a payload, neither of the two
    empty nor running over a line end. *)
Definition data_url_shape (s : jsstring) : Prop :=
  exists mime payload : jsstring,
    mime <> [] /\ payload <> [] /\
    forallb dot mime = true /\ forallb dot payload = true /\
    s = str "data:" ++ mime ++ str ";base64," ++ payload.

Definition format_error : JsError :=
  new_Error (str "Invalid base64 string provided.").

(** An event of the adapter: a call, a request or a log line. It leaves the
    state of the component alone. *)
Definition is_adapter_event (e : Event) : bool :=
  match e with
  | Invoke _ | Backend _ _ | Console _ _ => true
  | SetState _ | ScrollToTop => false
  end.

(** The three generation operations. *)
Definition is_generation_call (c : Call) : bool :=
  match c with
  | generateTryOn_call _ _ _ _
  | generateStyleRecommendations_call _
  | generateStylistReview_call _ _ => true
  | validateClothingSafety_call _
  | generateProductImage_call _ => false
  end.

(** An event that is no part of generation: no generation operation is
    called, and a request to the backend is the gate's question. *)
Definition no_generation (e : Event) : Prop :=
  match e with
  | Invoke c => is_generation_call c = false
  | Backend r _ => exists img, r = safety_request img
  | _ => True
  end.

(** [safetyCheck.valid] is truthy. *)
Definition gate_passes (verdict : json) : bool :=
  truthy (member verdict (str "valid")).

(** The gate reports the garment invalid, or the check itself throws. *)
Definition gate_blocks (c : Completion json) : Prop :=
  match c with
  | Throw _ => True
  | Normal verdict => gate_passes verdict = false
  end.

(** A failure of the backend as [generateStylistReview] meets it inside its
    [try]: the request is rejected. *)
Definition request_failed (o : Outcome) : bool :=
  match o with
  | Rejects _ => true
  | Responds _ => false
  end.

(** A failure of the backend as [generateStyleRecommendations] meets it
    inside its [try]: the request is rejected, or it is answered with a text
    that [JSON.parse] cannot read. *)
Definition answer_failed (o : Outcome) : bool :=
  match o with
  | Rejects _ => true
  | Responds r =>
      truthy_text (response_text r) &&
      match JSON_parse (text_or_undefined (response_text r)) with
      | Some _ => false
      | None => true
      end
  end.

(** The inline images of a response, in order. *)
Definition inline_blobs (ps : list Part) : list Blob :=
  flat_map (fun p => match part_inlineData p with
                     | Some b => [b]
                     | None => []
                     end) ps.

Fixpoint last_blob (bs : list Blob) : option Blob :=
  match bs with
  | [] => None
  | [b] => Some b
  | _ :: bs' => last_blob bs'
  end.

(** [needle] occurs in [s]. *)
Definition occurs_in (needle s : jsstring) : Prop :=
  exists before after, s = before ++ needle ++ after.

(** The poses the code sends: the sentinel, or an angle of the slider, whose
    two bounds are both included. *)
Definition pose_in_range (p : Pose) : Prop :=
  match p with
  | original => True
  | degrees n => (0 <= n <= 360)%Z
  end.

(** The poses the specification allows: the upper bound is excluded. *)
Definition pose_in_spec_range (p : Pose) : Prop :=
  match p with
  | original => True
  | degrees n => (0 <= n < 360)%Z
  end.

Definition rotation_ok (st : AppState) : Prop :=
  (0 <= rotation st <= 360)%Z.

(** What the system's invariant asks of an event performed by a handler that
    closed over [cap]. *)
Definition event_ok (cap : AppState) (e : Event) : Prop :=
  match e with
  | SetState (setRotation v) => (0 <= v <= 360)%Z
  | Invoke (generateTryOn_call _ _ _ p) => p = selected_pose cap
  | _ => True
  end.

Definition task_ok (t : Task) : Prop :=
  rotation_ok (captured t) /\ Forall (event_ok (captured t)) (pending t).

Definition system_ok (s : System) : Prop :=
  rotation_ok (current s) /\
  Forall task_ok (tasks s) /\
  Forall (fun ce => rotation_ok (fst ce) /\ event_ok (fst ce) (snd ce))
         (history s).

(** The message of the error that [generateTryOn] throws when the response
    holds no image. *)
Definition missing_image_message (ps : list Part) : jsstring :=
  match find_text ps with
  | Some textPart =>
      let cleanFeedback :=
        trim (remove_fenced (str "```json") (str "```") textPart) in
      if Nat.ltb 0 (List.length cleanFeedback)
      then refusal_message cleanFeedback
      else no_image_message
  | None => no_image_message
  end.

(** A request or a log line. *)
Definition is_quiet (e : Event) : bool :=
  match e with
  | Backend _ _ | Console _ _ => true
  | _ => false
  end.

(** The three updates every run starts with. *)
Definition entering : list Event :=
  [SetState (setStatus PROCESSING); SetState (setError None);
   SetState (setResult None)].

(** The three events of the handler's [catch]. *)
Definition failing (err : JsError) : list Event :=
  [Console error_level [LogError err];
   SetState (setError (Some
     (message_or err (str "Failed to process the virtual try-on."))));
   SetState (setStatus ERROR)].

(** The two updates of a cycle that succeeds. *)
Definition succeeding (r : TryOnResult) (recs : json) (review : jsstring)
    : list Event :=
  [SetState (setResult (Some {|
     imageUrl := Some (tryOn_imageUrl r);
     recommendations := Some recs;
     feedback := Some review |}));
   SetState (setStatus SUCCESS)].

(** The fan-out of a cycle: the three generation calls, joined. *)
Definition fan_out (st : AppState) (user clothing : ImageFile)
    : Async (TryOnResult * json * jsstring) :=
  Promise_all3
    (generateTryOn (base64 user) (base64 clothing) (instructions st)
       (selected_pose st))
    (generateStyleRecommendations (base64 clothing))
    (generateStylistReview (base64 user) (base64 clothing)).

(** ** More of the component and of its collaborators *)

(** The encoding that [parseBase64] reads back: what a file reader and the
    adapter's own [png_url] produce. *)
Definition data_url (img : InlineData) : jsstring :=
  str "data:" ++ mimeType img ++ str ";base64," ++ data img.

(** The requests to the backend of a run, in order. *)
Definition backend_requests (t : list Event) : list Request :=
  flat_map (fun e => match e with Backend r _ => [r] | _ => [] end) t.

(** The operations of the adapter called in a run, in order. *)
Definition invocations (t : list Event) : list Call :=
  flat_map (fun e => match e with Invoke c => [c] | _ => [] end) t.

(** The component with every handler run to its end before the next event:
    one event, then a list of them from the first render. *)
Definition step (st : AppState) (e : UiEvent) (w : World) : AppState :=
  run_handler (handler_of st e) w st.

Definition run_events (events : list (UiEvent * World)) : AppState :=
  fold_left (fun st ew => step st (fst ew) (snd ew)) events initial_state.

(** What the states reached event by event have in common: no cycle is left
    running, a Success carries its image and its note, neither empty, and no
    error, an Error carries its message and no result, and the angle is the
    slider's. *)
Definition settled (st : AppState) : Prop :=
  status st <> PROCESSING /\
  (status st = SUCCESS ->
     error st = None /\
     exists url recs review,
       url <> [] /\ review <> [] /\
       result st = Some {| imageUrl := Some url;
                           feedback := Some review;
                           recommendations := Some recs |}) /\
  (status st = ERROR ->
     result st = None /\
     exists msg, error st = Some msg /\ msg <> []) /\
  rotation_ok st.

(** *** [ImageUploader] *)

(** The two properties of a dropped or chosen [File] that the uploader
    reads. *)
Record PickedFile := { picked_name : jsstring; picked_type : jsstring }.

(** [name.match(/\.(glb|gltf)$/)], without the [i] flag. *)
Definition is_model_name_exact (name : jsstring) : bool :=
  ends_with (str ".glb") name || ends_with (str ".gltf") name.

(** [handleDrop]: the file handed to the reader, whose result becomes the
    uploader's image; [None] when nothing is dropped or the file is turned
    away. *)
Definition handleDrop (accept : jsstring) (dropped : option PickedFile)
    : option PickedFile :=
  match dropped with
  | None => None
  | Some f =>
      if includes (str "image") accept
         && negb (starts_with (str "image/") (picked_type f))
      then
        if negb (is_model_name_exact (picked_name f)) then None else Some f
      else Some f
  end.

(** *** [ResultDisplay] *)

(** [ResultDisplay] by its tests on [status]: the panel it returns in the
    idle, the progress and the error state, with the text the error panel
    shows. In any other state the function goes on to its last [return],
    whose markup reads [result]. What evaluating that markup gives, the look
    with its cards or, when [result.recommendations] is not an array of
    objects, a TypeError, is not modelled: [LastReturn] says that the
    statement is reached and nothing about what comes of it. *)
Inductive Panel :=
| IdlePanel
| ProcessingPanel
| ErrorPanel (shown : jsstring)
| LastReturn.

Definition ResultDisplay (status : AppStatus)
    (result : option GenerationResult) (error : option jsstring) : Panel :=
  match status with
  | IDLE => IdlePanel
  | PROCESSING => ProcessingPanel
  | ERROR =>
      ErrorPanel
        (if truthy_text error then text_or_undefined error
         else str "We encountered an issue. Please check your inputs.")
  | SUCCESS => LastReturn
  end.

(** What the component hands to [ResultDisplay] in a state. *)
Definition panel_of (st : AppState) : Panel :=
  ResultDisplay (status st) (result st) (error st).

(** *** End states and scenarios *)

(** [st] with the three fields a cycle writes replaced. *)
Definition with_outputs (st : AppState) (s : AppStatus)
    (r : option GenerationResult) (e : option jsstring) : AppState :=
  {| userImage := userImage st; clothingImage := clothingImage st;
     clothingModelUrl := clothingModelUrl st;
     instructions := instructions st; rotation := rotation st;
     useCustomRotation := useCustomRotation st;
     status := s; result := r; error := e |}.

(** What [name.match(/\.(glb|gltf)$/i)] looks for: a last part of the name
    that reads [.glb] or [.gltf] in any case. *)
Definition model_extension (ext : jsstring) : Prop :=
  map ascii_lower ext = str ".glb" \/ map ascii_lower ext = str ".gltf".

Module Scenario.

(** The product request is answered with a remark and two images. *)
Definition two_products (k : Sample.Kind) : Outcome :=
  match k with
  | Sample.Product =>
    Sample.parts_response
      [Sample.text_part "Here it is"; Sample.image_part "image/jpeg" "ONE";
       Sample.image_part "image/png" "TWO"]
  | _ => Sample.all_fine k
  end.

Definition two_products_response : Response :=
  {| candidates :=
     Some [{| content := Some {| parts :=
       Some [Sample.text_part "Here it is";
             Sample.image_part "image/jpeg" "ONE";
             Sample.image_part "image/png" "TWO"] |} |}];
   response_text := None |}.

(** The product request is answered with an image that has no bytes. *)
Definition hollow_response : Response :=
  {| candidates :=
     Some [{| content := Some {| parts :=
       Some [{| part_inlineData :=
                  Some {| blob_mimeType := Some (str "image/png");
                          blob_data := Some [] |};
                part_text := None |}] |} |}];
   response_text := None |}.

Definition hollow_product (k : Sample.Kind) : Outcome :=
  match k with
  | Sample.Product => Responds hollow_response
  | _ => Sample.all_fine k
  end.

(** The stylist answers with an empty text. *)
Definition wordless (k : Sample.Kind) : Outcome :=
  match k with
  | Sample.Review => Sample.text_response []
  | _ => Sample.all_fine k
  end.

Definition refusal_response : Response :=
  {| candidates :=
     Some [{| content := Some {| parts :=
       Some [Sample.text_part "I can't do that"] |} |}];
   response_text := None |}.

(** A 3D model of a jacket, as the uploader hands it over. *)
Definition jacket_model : ImageFile :=
  {| file := {| name := str "Jacket.GLB" |};
     previewUrl := str "data:model/gltf-binary;base64,Z2xURg";
     base64 := str "data:model/gltf-binary;base64,Z2xURg" |}.

(** The person is in, the garment is not. *)
Definition person_only : AppState :=
  apply_update initial_state (setUserImage (Some Sample.person)).

(** A look has just been generated from [Sample.ready]. *)
Definition shown : AppState :=
  run_handler (handleTryOn Sample.ready) (Sample.world Sample.all_fine)
    Sample.ready.

(** A garment that is a file name, not a data URL. *)
Definition broken_garment : ImageFile :=
  {| file := {| name := str "shirt.jpg" |};
     previewUrl := str "blob:3";
     base64 := str "shirt.jpg" |}.

Definition broken : AppState :=
  apply_update person_only (setClothingImage (Some broken_garment)).

(** A person's image that is a file name, not a data URL. *)
Definition broken_person : ImageFile :=
  {| file := {| name := str "me.png" |};
     previewUrl := str "blob:4";
     base64 := str "me.png" |}.

Definition faceless : AppState :=
  apply_update
    (apply_update initial_state (setUserImage (Some broken_person)))
    (setClothingImage (Some Sample.garment)).

(** The jacket is in the viewer and a view of it has been captured. *)
Definition modelled : AppState :=
  step (step person_only (ClothingImageChange (Some jacket_model))
          (Sample.world Sample.all_fine))
    (Capture (base64 Sample.garment)) (Sample.world Sample.all_fine).

End Scenario.
(** * Properties *)

(** ** Running asynchronous computations *)

Section AsyncLaws.

Context {A B : Type}.

Lemma trace_bind (m : Async A) (k : A -> Async B) (w : World) :
  trace (bind m k) w =
  trace m w ++ match outcome_of m w with
               | Normal a => trace (k a) w
               | Throw _ => []
               end.
Proof.
  unfold trace, outcome_of, bind.
  destruct (m w) as [t [a | e]]; simpl.
  - destruct (k a w); reflexivity.
  - now rewrite app_nil_r.
Qed.

Lemma outcome_bind (m : Async A) (k : A -> Async B) (w : World) :
  outcome_of (bind m k) w =
  match outcome_of m w with
  | Normal a => outcome_of (k a) w
  | Throw e => Throw e
  end.
Proof.
  unfold outcome_of, bind.
  destruct (m w) as [t [a | e]]; simpl; [destruct (k a w) |]; reflexivity.
Qed.

Lemma trace_try_catch (m : Async A) (h : JsError -> Async A) (w : World) :
  trace (try_catch m h) w =
  trace m w ++ match outcome_of m w with
               | Normal _ => []
               | Throw e => trace (h e) w
               end.
Proof.
  unfold trace, outcome_of, try_catch.
  destruct (m w) as [t [a | e]]; simpl.
  - now rewrite app_nil_r.
  - destruct (h e w); reflexivity.
Qed.

Lemma outcome_try_catch (m : Async A) (h : JsError -> Async A) (w : World) :
  outcome_of (try_catch m h) w =
  match outcome_of m w with
  | Normal a => Normal a
  | Throw e => outcome_of (h e) w
  end.
Proof.
  unfold outcome_of, try_catch.
  destruct (m w) as [t [a | e]]; simpl; [| destruct (h e w)]; reflexivity.
Qed.

End AsyncLaws.

Lemma trace_ret {A} (a : A) w : trace (ret a) w = [].
Proof. reflexivity. Qed.

Lemma outcome_ret {A} (a : A) w : outcome_of (ret a) w = Normal a.
Proof. reflexivity. Qed.

Lemma trace_throw {A} e w : trace (@throw A e) w = [].
Proof. reflexivity. Qed.

Lemma outcome_throw {A} e w : outcome_of (@throw A e) w = Throw e.
Proof. reflexivity. Qed.

Lemma trace_emit e w : trace (emit e) w = [e].
Proof. reflexivity. Qed.

Lemma outcome_emit e w : outcome_of (emit e) w = Normal tt.
Proof. reflexivity. Qed.

Lemma trace_lift {A} (c : Completion A) w : trace (lift c) w = [].
Proof. reflexivity. Qed.

Lemma outcome_lift {A} (c : Completion A) w : outcome_of (lift c) w = c.
Proof. reflexivity. Qed.

Lemma trace_ask w : trace ask w = [].
Proof. reflexivity. Qed.

Lemma outcome_ask w : outcome_of ask w = Normal w.
Proof. reflexivity. Qed.

Lemma trace_generateContent_await req w :
  trace (generateContent_await req) w = [Backend req (generateContent w req)].
Proof. reflexivity. Qed.

Lemma outcome_generateContent_await req w :
  outcome_of (generateContent_await req) w =
  match generateContent w req with
  | Rejects e => Throw e
  | Responds r => Normal r
  end.
Proof. reflexivity. Qed.

Lemma trace_Promise_all3 {A B C} (a : Async A) (b : Async B) (c : Async C) w :
  trace (Promise_all3 a b c) w = trace a w ++ trace b w ++ trace c w.
Proof.
  unfold trace, Promise_all3.
  destruct (a w), (b w), (c w); reflexivity.
Qed.

Lemma outcome_Promise_all3 {A B C} (a : Async A) (b : Async B) (c : Async C)
    w :
  outcome_of (Promise_all3 a b c) w =
  match outcome_of a w, outcome_of b w, outcome_of c w with
  | Normal x, Normal y, Normal z => Normal (x, y, z)
  | ra, rb, rc =>
      match first_rejection (settle_order w ++ [0; 1; 2])
              [rejection ra; rejection rb; rejection rc] with
      | Some e => Throw e
      | None => Throw (new_Error [])
      end
  end.
Proof.
  unfold outcome_of, Promise_all3.
  destruct (a w) as [? [|]], (b w) as [? [|]], (c w) as [? [|]]; reflexivity.
Qed.

Create Rewrite HintDb async.
#[global] Hint Rewrite @trace_bind @outcome_bind @trace_try_catch
  @outcome_try_catch @trace_ret @outcome_ret @trace_throw @outcome_throw
  trace_emit outcome_emit @trace_lift @outcome_lift trace_ask outcome_ask
  trace_generateContent_await outcome_generateContent_await
  @trace_Promise_all3 @outcome_Promise_all3 : async.

Ltac async := unfold set_state, console; autorewrite with async.

(** ** Strings and [JSON.parse] *)

Lemma starts_with_prefix (p s : jsstring) :
  starts_with p s = true -> s = p ++ skipn (List.length p) s.
Proof.
  revert s; induction p as [| x p IH]; intros [| y s] H; simpl in *;
    try reflexivity; try discriminate.
  apply andb_true_iff in H as [Hxy Hps].
  apply N.eqb_eq in Hxy; subst y.
  f_equal; now apply IH.
Qed.

Lemma skip_ws_length (s : jsstring) :
  List.length (skip_ws s) <= List.length s.
Proof.
  induction s as [| c s IH]; simpl; [lia |].
  destruct (is_json_ws c); simpl; lia.
Qed.

Lemma lex_string_length (n : nat) :
  forall s acc t r,
    List.length s <= n -> lex_string s acc = Some (t, r) ->
    List.length r < List.length s.
Proof.
  induction n as [| n IH]; intros s acc t r Hn H.
  - destruct s; [discriminate | simpl in Hn; lia].
  - destruct s as [| c rest]; [discriminate |].
    cbn [lex_string] in H. simpl in Hn.
    destruct (N.eqb c 34).
    { injection H as _ <-. simpl; lia. }
    destruct (N.eqb c 92).
    + destruct rest as [| e rest']; [discriminate |].
      destruct (N.eqb e 117).
      * destruct rest' as [| a [| b [| c' [| d rest'']]]]; try discriminate.
        destruct (hex_value a), (hex_value b), (hex_value c'), (hex_value d);
          try discriminate.
        apply IH in H; simpl in *; lia.
      * destruct (escape_value e); [| discriminate].
        apply IH in H; simpl in *; lia.
    + destruct (c <? 32)%N; [discriminate |].
      apply IH in H; simpl in *; lia.
Qed.

Lemma lex_digits_length (s : jsstring) :
  forall acc len v len' r,
    lex_digits s acc len = (v, len', r) -> List.length r <= List.length s.
Proof.
  induction s as [| c s IH]; intros acc len v len' r H; simpl in H.
  - injection H as _ _ <-. simpl; lia.
  - destruct (is_digit c).
    + apply IH in H. simpl; lia.
    + injection H as _ _ <-. simpl; lia.
Qed.

Lemma lex_digits1_length (s : jsstring) acc v len r :
  lex_digits1 s acc = Some (v, len, r) -> List.length r <= List.length s.
Proof.
  unfold lex_digits1.
  destruct (lex_digits s acc 0) as [[v' len'] r'] eqn:H.
  destruct (Nat.eqb len' 0); [discriminate |].
  intros E; injection E as _ _ <-. exact (lex_digits_length _ _ _ _ _ _ H).
Qed.

Lemma lex_fraction_length (s : jsstring) int_part m len r :
  lex_fraction int_part s = Some (m, len, r) ->
  List.length r <= List.length s.
Proof.
  unfold lex_fraction. destruct s as [| c s'].
  - intros E; injection E as _ _ <-. simpl; lia.
  - destruct (N.eqb c 46).
    + intros H; apply lex_digits1_length in H. simpl; lia.
    + intros E; injection E as _ _ <-. simpl; lia.
Qed.

Lemma lex_exponent_length (s : jsstring) e r :
  lex_exponent s = Some (e, r) -> List.length r <= List.length s.
Proof.
  unfold lex_exponent. destruct s as [| c s'].
  - intros E; injection E as _ <-. simpl; lia.
  - destruct (_ || _)%bool.
    + destruct s' as [| x r'].
      * destruct (lex_digits1 [] 0) as [[[e' l] r''] |] eqn:H; [| discriminate].
        intros E; injection E as _ <-.
        apply lex_digits1_length in H. simpl in *; lia.
      * destruct (N.eqb x 43); [| destruct (N.eqb x 45)];
          (destruct (lex_digits1 _ 0) as [[[e' l] r''] |] eqn:H;
             [| discriminate];
           intros E; injection E as _ <-;
           apply lex_digits1_length in H; simpl in *; lia).
    + intros E; injection E as _ <-. simpl; lia.
Qed.

Lemma lex_number_length (neg : bool) (s : jsstring) n r :
  lex_number neg s = Some (n, r) -> List.length r < List.length s.
Proof.
  unfold lex_number. destruct s as [| c s']; [discriminate |].
  destruct (is_digit c) eqn:Hc; [| discriminate]. simpl negb. cbv iota.
  destruct (lex_digits (c :: s') 0 0) as [[int_part int_len] r1] eqn:Hd.
  destruct (_ && _)%bool; [discriminate |].
  destruct (lex_fraction int_part r1) as [[[m fl] r2] |] eqn:Hf;
    [| discriminate].
  destruct (lex_exponent r2) as [[e r3] |] eqn:He; [| discriminate].
  intros E; injection E as _ <-.
  simpl in Hd. rewrite Hc in Hd.
  apply lex_digits_length in Hd.
  apply lex_fraction_length in Hf. apply lex_exponent_length in He.
  simpl; lia.
Qed.

Lemma starts_with_length (p s : jsstring) :
  starts_with p s = true ->
  List.length s = List.length p + List.length (skipn (List.length p) s).
Proof.
  intros H. rewrite (starts_with_prefix _ _ H) at 1. apply length_app.
Qed.

Lemma parse_scalar_length (s : jsstring) v r :
  parse_scalar s = Some (v, r) -> List.length r < List.length s.
Proof.
  unfold parse_scalar. destruct s as [| c s']; [discriminate |].
  destruct (starts_with (str "null") (c :: s')) eqn:H1.
  { intros E; injection E as _ <-.
    apply starts_with_length in H1. simpl in H1 |- *. lia. }
  destruct (starts_with (str "true") (c :: s')) eqn:H2.
  { intros E; injection E as _ <-.
    apply starts_with_length in H2. simpl in H2 |- *. lia. }
  destruct (starts_with (str "false") (c :: s')) eqn:H3.
  { intros E; injection E as _ <-.
    apply starts_with_length in H3. simpl in H3 |- *. lia. }
  destruct (N.eqb c 34).
  { destruct (lex_string s' []) as [[t r'] |] eqn:Hs; [| discriminate].
    intros E; injection E as _ <-.
    apply (lex_string_length _ _ _ _ _ (le_n _)) in Hs. simpl; lia. }
  destruct (N.eqb c 45).
  - destruct (lex_number true s') as [[n r'] |] eqn:Hn; [| discriminate].
    intros E; injection E as _ <-.
    apply lex_number_length in Hn. simpl; lia.
  - destruct (lex_number false (c :: s')) as [[n r'] |] eqn:Hn;
      [| discriminate].
    intros E; injection E as _ <-.
    now apply lex_number_length in Hn.
Qed.

Lemma parse_value_S f s :
  parse_value (S f) s =
  match skip_ws s with
  | [] => None
  | c :: r =>
      if N.eqb c 91 then
        match skip_ws r with
        | [] => None
        | c' :: r' =>
            if N.eqb c' 93 then Some (JArr [], r')
            else parse_elements f r []
        end
      else if N.eqb c 123 then
        match skip_ws r with
        | [] => None
        | c' :: r' =>
            if N.eqb c' 125 then Some (JObj [], r')
            else parse_members f r []
        end
      else parse_scalar (c :: r)
  end.
Proof. reflexivity. Qed.

Lemma parse_elements_S f s acc :
  parse_elements (S f) s acc =
  match parse_value f s with
  | None => None
  | Some (v, r) =>
      match skip_ws r with
      | [] => None
      | c :: r' =>
          if N.eqb c 44 then parse_elements f r' (v :: acc)
          else if N.eqb c 93 then Some (JArr (rev (v :: acc)), r')
          else None
      end
  end.
Proof. reflexivity. Qed.

Lemma parse_members_S f s acc :
  parse_members (S f) s acc =
  match skip_ws s with
  | [] => None
  | q :: r =>
      if negb (N.eqb q 34) then None else
      match lex_string r [] with
      | None => None
      | Some (key, r1) =>
          match skip_ws r1 with
          | [] => None
          | colon :: r2 =>
              if negb (N.eqb colon 58) then None else
              match parse_value f r2 with
              | None => None
              | Some (v, r3) =>
                  match skip_ws r3 with
                  | [] => None
                  | c :: r4 =>
                      if N.eqb c 44
                      then parse_members f r4 ((key, v) :: acc)
                      else if N.eqb c 125
                      then Some (JObj (rev ((key, v) :: acc)), r4)
                      else None
                  end
              end
          end
      end
  end.
Proof. reflexivity. Qed.

(** A parse that succeeds has consumed input, and succeeds in the same way
    with any fuel of at least twice what it consumed. *)
Lemma parse_fuel (f : nat) :
  (forall s v r, parse_value f s = Some (v, r) ->
     List.length r < List.length s /\
     forall f', 2 * (List.length s - List.length r) <= f' ->
                parse_value f' s = Some (v, r)) /\
  (forall s acc v r, parse_elements f s acc = Some (v, r) ->
     List.length r < List.length s /\
     forall f', 2 * (List.length s - List.length r) - 1 <= f' ->
                parse_elements f' s acc = Some (v, r)) /\
  (forall s acc v r, parse_members f s acc = Some (v, r) ->
     List.length r < List.length s /\
     forall f', 2 * (List.length s - List.length r) - 1 <= f' ->
                parse_members f' s acc = Some (v, r)).
Proof.
  induction f as [| f (IHv & IHe & IHm)];
    [repeat split; intros; discriminate |].
  split; [| split].
  - (* a value *)
    intros s v r. rewrite parse_value_S.
    destruct (skip_ws s) as [| c t] eqn:Hs; [discriminate |].
    pose proof (skip_ws_length s) as Ls. rewrite Hs in Ls. simpl in Ls.
    destruct (N.eqb c 91) eqn:H91; [| destruct (N.eqb c 123) eqn:H123].
    + destruct (skip_ws t) as [| c' t'] eqn:Ht; [discriminate |].
      pose proof (skip_ws_length t) as Lt. rewrite Ht in Lt. simpl in Lt.
      destruct (N.eqb c' 93) eqn:H93.
      * intros E; injection E as <- <-. split; [lia |].
        intros [| f'] Hf'; [lia |].
        now rewrite parse_value_S, Hs, H91, Ht, H93.
      * intros E. destruct (IHe _ _ _ _ E) as [Lr Hmore].
        split; [lia |].
        intros [| f'] Hf'; [lia |].
        rewrite parse_value_S, Hs, H91, Ht, H93. apply Hmore. lia.
    + destruct (skip_ws t) as [| c' t'] eqn:Ht; [discriminate |].
      pose proof (skip_ws_length t) as Lt. rewrite Ht in Lt. simpl in Lt.
      destruct (N.eqb c' 125) eqn:H125.
      * intros E; injection E as <- <-. split; [lia |].
        intros [| f'] Hf'; [lia |].
        now rewrite parse_value_S, Hs, H91, H123, Ht, H125.
      * intros E. destruct (IHm _ _ _ _ E) as [Lr Hmore].
        split; [lia |].
        intros [| f'] Hf'; [lia |].
        rewrite parse_value_S, Hs, H91, H123, Ht, H125. apply Hmore. lia.
    + intros E. pose proof (parse_scalar_length _ _ _ E) as Lr.
      simpl in Lr. split; [lia |].
      intros [| f'] Hf'; [lia |].
      now rewrite parse_value_S, Hs, H91, H123.
  - (* the elements of an array *)
    intros s acc v r. rewrite parse_elements_S.
    destruct (parse_value f s) as [[v1 r1] |] eqn:Hv; [| discriminate].
    destruct (IHv _ _ _ Hv) as [L1 Hmore1].
    destruct (skip_ws r1) as [| c r'] eqn:Hr1; [discriminate |].
    pose proof (skip_ws_length r1) as Lr1. rewrite Hr1 in Lr1.
    simpl in Lr1.
    destruct (N.eqb c 44) eqn:H44; [| destruct (N.eqb c 93) eqn:H93].
    + intros E. destruct (IHe _ _ _ _ E) as [Lr Hmore].
      split; [lia |].
      intros [| f'] Hf'; [lia |].
      rewrite parse_elements_S, (Hmore1 f'), Hr1, H44 by lia.
      apply Hmore. lia.
    + intros E; injection E as <- <-. split; [lia |].
      intros [| f'] Hf'; [lia |].
      now rewrite parse_elements_S, (Hmore1 f'), Hr1, H44, H93 by lia.
    + discriminate.
  - (* the members of an object *)
    intros s acc v r. rewrite parse_members_S.
    destruct (skip_ws s) as [| q t] eqn:Hs; [discriminate |].
    pose proof (skip_ws_length s) as Ls. rewrite Hs in Ls. simpl in Ls.
    destruct (negb (N.eqb q 34)) eqn:Hq; [discriminate |].
    destruct (lex_string t []) as [[key r1] |] eqn:Hkey; [| discriminate].
    pose proof (lex_string_length _ _ _ _ _ (le_n _) Hkey) as Lkey.
    destruct (skip_ws r1) as [| colon r2] eqn:Hr1; [discriminate |].
    pose proof (skip_ws_length r1) as Lr1. rewrite Hr1 in Lr1.
    simpl in Lr1.
    destruct (negb (N.eqb colon 58)) eqn:Hcolon; [discriminate |].
    destruct (parse_value f r2) as [[v1 r3] |] eqn:Hv; [| discriminate].
    destruct (IHv _ _ _ Hv) as [L3 Hmore3].
    destruct (skip_ws r3) as [| c r4] eqn:Hr3; [discriminate |].
    pose proof (skip_ws_length r3) as Lr3. rewrite Hr3 in Lr3.
    simpl in Lr3.
    destruct (N.eqb c 44) eqn:H44; [| destruct (N.eqb c 125) eqn:H125].
    + intros E. destruct (IHm _ _ _ _ E) as [Lr Hmore].
      split; [lia |].
      intros [| f'] Hf'; [lia |].
      rewrite parse_members_S, Hs, Hq, Hkey, Hr1, Hcolon, (Hmore3 f'),
        Hr3, H44 by lia.
      apply Hmore. lia.
    + intros E; injection E as <- <-. split; [lia |].
      intros [| f'] Hf'; [lia |].
      now rewrite parse_members_S, Hs, Hq, Hkey, Hr1, Hcolon, (Hmore3 f'),
        Hr3, H44, H125 by lia.
    + discriminate.
Qed.

(** The fuel of [JSON_parse] is enough: no fuel parses a text that
    [JSON_parse]'s fuel does not parse in the same way. *)
Lemma JSON_parse_fuel (text : jsstring) (f : nat) v r :
  parse_value f text = Some (v, r) ->
  parse_value (2 * List.length text) text = Some (v, r).
Proof.
  intros H. destruct (parse_fuel f) as [Hv _].
  destruct (Hv _ _ _ H) as [_ Hmore]. apply Hmore. lia.
Qed.

(** ** The encoder's parser *)

Lemma starts_with_app (p s : jsstring) : starts_with p (p ++ s) = true.
Proof.
  induction p as [| x p IH]; simpl; [reflexivity |].
  now rewrite N.eqb_refl, IH.
Qed.

(** What [(.+)] hands to its continuation: a capture that is not empty and
    holds no line terminator, and the input behind it. *)
Lemma greedy_dots_sound {R} (s : jsstring)
    (k : jsstring -> jsstring -> option R) (r : R) :
  greedy_dots s k = Some r ->
  exists capture rest,
    s = capture ++ rest /\ capture <> [] /\ forallb dot capture = true /\
    k capture rest = Some r.
Proof.
  revert k; induction s as [| c s IH]; intros k H; [discriminate |].
  cbn [greedy_dots] in H.
  destruct (dot c) eqn:Hc; [| discriminate].
  destruct (greedy_dots s _) as [r' |] eqn:Hlong.
  - injection H as ->.
    apply IH in Hlong as (capture & rest & -> & _ & Hdots & Hk).
    exists (c :: capture), rest. repeat split; try assumption.
    + discriminate.
    + simpl. now rewrite Hc, Hdots.
  - exists [c], s. repeat split; try assumption.
    + discriminate.
    + simpl. now rewrite Hc.
Qed.

(** [(.+)] finds a match whenever some capture lets the rest of the pattern
    match. *)
Lemma greedy_dots_complete {R} (capture rest : jsstring)
    (k : jsstring -> jsstring -> option R) (r : R) :
  capture <> [] -> forallb dot capture = true ->
  k capture rest = Some r ->
  exists r', greedy_dots (capture ++ rest) k = Some r'.
Proof.
  revert k; induction capture as [| c capture IH]; intros k Hne Hdots Hk;
    [congruence |].
  simpl in Hdots. apply andb_true_iff in Hdots as [Hc Hdots].
  rewrite <- app_comm_cons. cbn [greedy_dots]. rewrite Hc.
  destruct capture as [| c' capture].
  - simpl app. destruct (greedy_dots rest _); eauto.
  - destruct (IH (fun g s => k (c :: g) s)) as [r' ->];
      [discriminate | assumption | assumption | eauto].
Qed.

Lemma match_data_url_sound (s : jsstring) (ms : list jsstring) :
  match_data_url s = Some ms ->
  exists m d, ms = [s; m; d] /\ m <> [] /\ d <> [] /\
              forallb dot m = true /\ forallb dot d = true /\
              s = str "data:" ++ m ++ str ";base64," ++ d.
Proof.
  unfold match_data_url, literal.
  destruct (starts_with (str "data:") s) eqn:Hscheme; [| discriminate].
  intros H.
  apply greedy_dots_sound in H as (m & s2 & Hs1 & Hm & Hdm & H).
  destruct (starts_with (str ";base64,") s2) eqn:Hsep; [| discriminate].
  apply greedy_dots_sound in H as (d & s4 & Hs3 & Hd & Hdd & H).
  destruct s4 as [| ? ?]; [| discriminate].
  injection H as <-. rewrite app_nil_r in Hs3.
  exists m, d; repeat split; auto.
  rewrite (starts_with_prefix _ _ Hscheme), Hs1.
  rewrite (starts_with_prefix _ _ Hsep), Hs3. reflexivity.
Qed.

(** Whatever [parseBase64] returns is the two parts of a well-formed
    string. *)
Lemma parseBase64_Normal (s : jsstring) (img : InlineData) :
  parseBase64 s = Normal img ->
  mimeType img <> [] /\ data img <> [] /\
  forallb dot (mimeType img) = true /\ forallb dot (data img) = true /\
  s = str "data:" ++ mimeType img ++ str ";base64," ++ data img.
Proof.
  unfold parseBase64.
  destruct (match_data_url s) as [ms |] eqn:Hm; [| discriminate].
  apply match_data_url_sound in Hm as (m & d & -> & H).
  simpl. intros E; inversion E; subst; clear E. exact H.
Qed.

(** It throws one error only. *)
Lemma parseBase64_Throw (s : jsstring) (e : JsError) :
  parseBase64 s = Throw e -> e = format_error.
Proof.
  unfold parseBase64, format_error.
  destruct (match_data_url s) as [ms |]; [| congruence].
  destruct (negb _); congruence.
Qed.

(** Every string of the shape is accepted. *)
Lemma parseBase64_accepts (s : jsstring) :
  data_url_shape s -> exists img, parseBase64 s = Normal img.
Proof.
  intros (m & d & Hm & Hd & Hdm & Hdd & ->).
  assert (H : exists ms, match_data_url
                (str "data:" ++ m ++ str ";base64," ++ d) = Some ms).
  { destruct (greedy_dots_complete d []
                (fun group2 s4 =>
                   at_end s4 [str "data:" ++ m ++ str ";base64," ++ d;
                              m; group2])
                [str "data:" ++ m ++ str ";base64," ++ d; m; d] Hd Hdd
                eq_refl) as [r' Hr'].
    rewrite app_nil_r in Hr'.
    unfold match_data_url, literal.
    rewrite starts_with_app.
    change (skipn (List.length (str "data:"))
              (str "data:" ++ m ++ str ";base64," ++ d))
      with (m ++ str ";base64," ++ d).
    apply (greedy_dots_complete m _ _ r' Hm Hdm).
    rewrite starts_with_app.
    change (skipn (List.length (str ";base64,")) (str ";base64," ++ d))
      with d.
    exact Hr'. }
  destruct H as [ms Hms]. unfold parseBase64. rewrite Hms.
  apply match_data_url_sound in Hms as (m' & d' & -> & _).
  simpl. eauto.
Qed.

(** C5. A string that is not of the shape [data:<mime>;base64,<payload>]
    makes [parseBase64] throw its format error; a completion is either the
    pair or the error, so nothing partial is returned. *)
Theorem parseBase64_rejects_malformed (s : jsstring) :
  ~ data_url_shape s -> parseBase64 s = Throw format_error.
Proof.
  intros Hshape.
  destruct (parseBase64 s) as [img | e] eqn:Hparse.
  - exfalso; apply Hshape.
    apply parseBase64_Normal in Hparse as (Hm & Hd & Hdm & Hdd & Hs).
    now exists (mimeType img), (data img).
  - now apply parseBase64_Throw in Hparse as ->.
Qed.

Lemma parseBase64_rejects_malformed_witness :
  ~ data_url_shape (str "image/png;base64,AAAA") /\
  parseBase64 (str "image/png;base64,AAAA") = Throw format_error.
Proof.
  assert (H : ~ data_url_shape (str "image/png;base64,AAAA")).
  { intros (m & d & _ & _ & _ & _ & E). simpl in E. discriminate E. }
  split; [exact H | exact (parseBase64_rejects_malformed _ H)].
Defined.

(** ** What the adapter's operations return *)

Ltac case_outcomes :=
  repeat match goal with
    | H : parseBase64 ?x = _ |- context [parseBase64 ?x] => rewrite H
    | H : generateContent ?w ?r = _ |- context [generateContent ?w ?r] =>
        rewrite H
    | H : truthy_text ?x = _ |- context [truthy_text ?x] => rewrite H
    | H : JSON_parse ?x = _ |- context [JSON_parse ?x] => rewrite H
    | H : find_text ?x = _ |- context [find_text ?x] => rewrite H
    | H : first_image ?x = _ |- context [first_image ?x] => rewrite H
    | H : Nat.ltb ?a ?b = _ |- context [Nat.ltb ?a ?b] => rewrite H
    | |- context [match parseBase64 ?x with _ => _ end] =>
        destruct (parseBase64 x) eqn:?
    | |- context [match generateContent ?w ?r with _ => _ end] =>
        destruct (generateContent w r) eqn:?
    | |- context [if truthy_text ?x then _ else _] =>
        destruct (truthy_text x) eqn:?
    | |- context [match JSON_parse ?x with _ => _ end] =>
        destruct (JSON_parse x) eqn:?
    | |- context [match find_text ?x with _ => _ end] =>
        destruct (find_text x) eqn:?
    | |- context [match first_image ?x with _ => _ end] =>
        destruct (first_image x) eqn:?
    | |- context [if Nat.ltb ?a ?b then _ else _] =>
        destruct (Nat.ltb a b) eqn:?
    end.

Ltac run_adapter := repeat (progress (async; case_outcomes)).

Lemma adapter_events_frame (t : list Event) (st : AppState) :
  forallb is_adapter_event t = true -> fold_left apply_event t st = st.
Proof.
  induction t as [| e t IH]; simpl; [reflexivity |].
  intros H; apply andb_true_iff in H as [He Ht].
  destruct e; try discriminate; simpl; auto.
Qed.

(** The gate's answer, case by case. *)
Lemma outcome_validateClothingSafety c w :
  outcome_of (validateClothingSafety c) w =
  match parseBase64 c with
  | Throw e => Throw e
  | Normal img =>
      match generateContent w (safety_request img) with
      | Rejects _ => Throw service_unavailable
      | Responds r =>
          if truthy_text (response_text r) then
            match JSON_parse (text_or_undefined (response_text r)) with
            | Some v => Normal v
            | None => Throw service_unavailable
            end
          else Normal unverified
      end
  end.
Proof.
  unfold validateClothingSafety, JSON_parse_or_throw.
  run_adapter; reflexivity.
Qed.

Lemma trace_validateClothingSafety c w :
  Forall no_generation (trace (validateClothingSafety c) w) /\
  forallb is_adapter_event (trace (validateClothingSafety c) w) = true.
Proof.
  unfold validateClothingSafety, JSON_parse_or_throw.
  run_adapter; simpl; (split; [| reflexivity]).
  all: repeat (apply Forall_cons; [simpl; eauto |]); try apply Forall_nil.
Qed.

Lemma outcome_generateStylistReview u c w :
  outcome_of (generateStylistReview u c) w =
  match parseBase64 u with
  | Throw e => Throw e
  | Normal userImage =>
      match parseBase64 c with
      | Throw e => Throw e
      | Normal clothingImage =>
          match generateContent w (review_request userImage clothingImage) with
          | Rejects _ => Normal review_fallback
          | Responds r =>
              Normal (if truthy_text (response_text r)
                      then text_or_undefined (response_text r)
                      else review_default)
          end
      end
  end.
Proof.
  unfold generateStylistReview. run_adapter; reflexivity.
Qed.

Lemma outcome_generateStyleRecommendations c w :
  outcome_of (generateStyleRecommendations c) w =
  match parseBase64 c with
  | Throw e => Throw e
  | Normal img =>
      match generateContent w (recommendations_request img) with
      | Rejects _ => Normal (JArr [])
      | Responds r =>
          if truthy_text (response_text r) then
            match JSON_parse (text_or_undefined (response_text r)) with
            | Some v => Normal v
            | None => Normal (JArr [])
            end
          else Normal (JArr [])
      end
  end.
Proof.
  unfold generateStyleRecommendations, JSON_parse_or_throw.
  run_adapter; reflexivity.
Qed.

Lemma message_or_nonempty (m fallback : jsstring) :
  nonempty m = true -> message_or (new_Error m) fallback = m.
Proof. unfold message_or; simpl; now intros ->. Qed.

Lemma missing_image_message_nonempty (ps : list Part) :
  nonempty (missing_image_message ps) = true.
Proof.
  unfold missing_image_message.
  destruct (find_text ps); [destruct (Nat.ltb _ _) |]; reflexivity.
Qed.

Lemma outcome_generateTryOn u c i p w :
  outcome_of (generateTryOn u c i p) w =
  match parseBase64 u with
  | Throw e => Throw e
  | Normal userImage =>
      match parseBase64 c with
      | Throw e => Throw e
      | Normal clothingImage =>
          match generateContent w
                  (tryOn_request userImage clothingImage i p) with
          | Rejects e =>
              Throw (new_Error
                       (message_or e (str "Failed to process virtual try-on.")))
          | Responds r =>
              let imageUrl :=
                fold_left scan_image (response_parts r) None in
              if truthy_text imageUrl
              then Normal {| tryOn_imageUrl := text_or_undefined imageUrl |}
              else Throw (new_Error
                            (missing_image_message (response_parts r)))
          end
      end
  end.
Proof.
  unfold generateTryOn.
  run_adapter; try reflexivity;
    rewrite <- (message_or_nonempty (missing_image_message _)
                  (str "Failed to process virtual try-on.")
                  (missing_image_message_nonempty _));
    unfold missing_image_message; case_outcomes; reflexivity.
Qed.

Lemma outcome_generateProductImage rec w :
  outcome_of (generateProductImage rec) w =
  match generateContent w (product_request rec) with
  | Rejects _ => Throw visualization_failed
  | Responds r =>
      match first_image (response_parts r) with
      | Some url => Normal url
      | None => Throw visualization_failed
      end
  end.
Proof.
  unfold generateProductImage. run_adapter; reflexivity.
Qed.

(** Every operation logs its call first and then only talks to the backend
    and to the console. *)
Lemma trace_generateStylistReview u c w :
  exists t, trace (generateStylistReview u c) w
            = Invoke (generateStylistReview_call u c) :: t /\
            forallb is_quiet t = true.
Proof.
  unfold generateStylistReview. run_adapter; simpl; (eexists; split; reflexivity).
Qed.

Lemma trace_generateStyleRecommendations c w :
  exists t, trace (generateStyleRecommendations c) w
            = Invoke (generateStyleRecommendations_call c) :: t /\
            forallb is_quiet t = true.
Proof.
  unfold generateStyleRecommendations, JSON_parse_or_throw.
  run_adapter; simpl; (eexists; split; reflexivity).
Qed.

Lemma trace_generateTryOn u c i p w :
  exists t, trace (generateTryOn u c i p) w
            = Invoke (generateTryOn_call u c i p) :: t /\
            forallb is_quiet t = true.
Proof.
  unfold generateTryOn. run_adapter; simpl; (eexists; split; reflexivity).
Qed.

Lemma trace_generateProductImage rec w :
  exists t, trace (generateProductImage rec) w
            = Invoke (generateProductImage_call rec) :: t /\
            forallb is_quiet t = true.
Proof.
  unfold generateProductImage. run_adapter; simpl; (eexists; split; reflexivity).
Qed.

Lemma trace_validateClothingSafety_quiet c w :
  exists t, trace (validateClothingSafety c) w
            = Invoke (validateClothingSafety_call c) :: t /\
            forallb is_quiet t = true.
Proof.
  unfold validateClothingSafety, JSON_parse_or_throw.
  run_adapter; simpl; (eexists; split; reflexivity).
Qed.

Lemma quiet_is_adapter (t : list Event) :
  forallb is_quiet t = true -> forallb is_adapter_event t = true.
Proof.
  induction t as [| e t IH]; simpl; [reflexivity |].
  intros H; apply andb_true_iff in H as [He Ht].
  rewrite (IH Ht). destruct e; try discriminate; reflexivity.
Qed.

Lemma call_then_quiet_frame (c : Call) (t : list Event) (st : AppState) :
  forallb is_quiet t = true -> fold_left apply_event (Invoke c :: t) st = st.
Proof.
  intros H. apply adapter_events_frame. simpl. now apply quiet_is_adapter.
Qed.

(** ** The generate workflow *)

Lemma outcome_read_member v key w :
  outcome_of (read_member v key) w =
  match v with
  | JNull => Throw (new_Error (TypeError_message w))
  | _ => Normal (member v key)
  end.
Proof. unfold read_member. async. destruct v; reflexivity. Qed.

Lemma trace_read_member v key w : trace (read_member v key) w = [].
Proof. unfold read_member. async. destruct v; reflexivity. Qed.

#[global] Hint Rewrite outcome_read_member trace_read_member : async.

(** A run that the gate stops: nothing but the gate's own events lies between
    entering and failing. *)
Lemma handleTryOn_blocked st w user clothing :
  userImage st = Some user ->
  clothingImage st = Some clothing ->
  gate_blocks (outcome_of (validateClothingSafety (base64 clothing)) w) ->
  exists err,
    trace (handleTryOn st) w =
    entering ++ trace (validateClothingSafety (base64 clothing)) w
      ++ failing err.
Proof.
  intros Hu Hc Hgate. unfold handleTryOn. rewrite Hu, Hc. async.
  destruct (outcome_of (validateClothingSafety (base64 clothing)) w)
    as [verdict | e] eqn:Hv; simpl in Hgate.
  - unfold gate_passes in Hgate.
    destruct verdict; async; simpl in Hgate |- *;
      rewrite ?Hgate; simpl; async; simpl; rewrite ?app_nil_r;
      eexists; reflexivity.
  - async. simpl. rewrite ?app_nil_r. eexists; reflexivity.
Qed.

(** A run that the gate lets through: the fan-out follows, and its outcome
    decides between succeeding and failing. *)
Lemma handleTryOn_passed st w user clothing verdict :
  userImage st = Some user ->
  clothingImage st = Some clothing ->
  outcome_of (validateClothingSafety (base64 clothing)) w = Normal verdict ->
  gate_passes verdict = true ->
  trace (handleTryOn st) w =
  entering ++ trace (validateClothingSafety (base64 clothing)) w
    ++ trace (fan_out st user clothing) w
    ++ match outcome_of (fan_out st user clothing) w with
       | Normal (r, recs, review) => succeeding r recs review
       | Throw err => failing err
       end.
Proof.
  intros Hu Hc Hv Hpass. unfold handleTryOn. rewrite Hu, Hc.
  cbv zeta. fold (fan_out st user clothing).
  async. rewrite Hv. async.
  assert (Hm : match verdict with
               | JNull => Throw (new_Error (TypeError_message w))
               | _ => Normal (member verdict (str "valid"))
               end = Normal (member verdict (str "valid"))).
  { destruct verdict; try reflexivity. discriminate Hpass. }
  rewrite Hm. unfold gate_passes in Hpass. rewrite Hpass. simpl negb.
  cbv iota. async.
  destruct (outcome_of (fan_out st user clothing) w) as [[[r recs] review] | e];
    simpl; async; simpl; rewrite ?app_nil_r, <- ?app_assoc; reflexivity.
Qed.

(** C1. In every run of the generate workflow in which the gate reports the
    garment invalid, or the check itself throws, no generation operation is
    called, the only request to the backend is the gate's, and the workflow
    ends in the Error state, with no result. *)
Theorem rejected_garment_stops_workflow
    (st : AppState) (w : World) (user clothing : ImageFile) :
  userImage st = Some user ->
  clothingImage st = Some clothing ->
  gate_blocks (outcome_of (validateClothingSafety (base64 clothing)) w) ->
  Forall no_generation (trace (handleTryOn st) w) /\
  status (run_handler (handleTryOn st) w st) = ERROR /\
  result (run_handler (handleTryOn st) w st) = None.
Proof.
  intros Hu Hc Hgate.
  destruct (handleTryOn_blocked st w user clothing Hu Hc Hgate) as [err Ht].
  destruct (trace_validateClothingSafety (base64 clothing) w) as [Hgen Had].
  unfold run_handler. rewrite Ht. split.
  - apply Forall_app; split; [repeat constructor |].
    apply Forall_app; split; [exact Hgen | repeat constructor].
  - rewrite !fold_left_app, (adapter_events_frame _ _ Had). now split.
Qed.

Lemma first_rejection_same (order : list nat) (slots : list (option JsError))
    (e : JsError) :
  (forall i x, nth i slots None = Some x -> x = e) ->
  nth 0 slots None = Some e ->
  first_rejection (order ++ [0; 1; 2]) slots = Some e.
Proof.
  intros Hall H0. induction order as [| i order IH]; simpl.
  - now rewrite H0.
  - destruct (nth i slots None) as [x |] eqn:Hi; [| exact IH].
    now rewrite (Hall i x Hi).
Qed.

Lemma message_or_is_nonempty (e : JsError) (fallback : jsstring) :
  nonempty fallback = true -> nonempty (message_or e fallback) = true.
Proof.
  unfold message_or. now destruct (nonempty (message e)) eqn:H.
Qed.

(** Whatever [generateTryOn] throws has a message. *)
Lemma generateTryOn_Throw_nonempty u c i p w e :
  outcome_of (generateTryOn u c i p) w = Throw e ->
  nonempty (message e) = true.
Proof.
  rewrite outcome_generateTryOn.
  destruct (parseBase64 u) eqn:Hu.
  2: { intros E; injection E as <-.
       now rewrite (parseBase64_Throw _ _ Hu). }
  destruct (parseBase64 c) eqn:Hc.
  2: { intros E; injection E as <-.
       now rewrite (parseBase64_Throw _ _ Hc). }
  destruct (generateContent w _) as [e0 | r].
  - intros E; injection E as <-. now apply message_or_is_nonempty.
  - cbv zeta. destruct (truthy_text _); [discriminate |].
    intros E; injection E as <-. apply missing_image_message_nonempty.
Qed.

(** Once the gate has answered, the garment is known to be well-formed. *)
Lemma validateClothingSafety_Normal c w verdict :
  outcome_of (validateClothingSafety c) w = Normal verdict ->
  exists img, parseBase64 c = Normal img.
Proof.
  rewrite outcome_validateClothingSafety.
  destruct (parseBase64 c) as [img | e]; [eauto | discriminate].
Qed.

(** When [generateTryOn] rejects, the join rejects with the same message,
    whichever promise settles first. *)
Lemma fan_out_rejects st w user clothing img e :
  parseBase64 (base64 clothing) = Normal img ->
  outcome_of (generateTryOn (base64 user) (base64 clothing)
                (instructions st) (selected_pose st)) w = Throw e ->
  exists err, outcome_of (fan_out st user clothing) w = Throw err /\
              message err = message e.
Proof.
  intros Hc He. unfold fan_out. rewrite outcome_Promise_all3, He.
  assert (Hrecs : exists v, outcome_of
            (generateStyleRecommendations (base64 clothing)) w = Normal v).
  { rewrite outcome_generateStyleRecommendations, Hc.
    destruct (generateContent w _) as [? | r]; [eauto |].
    destruct (truthy_text _); [destruct (JSON_parse _) |]; eauto. }
  destruct Hrecs as [v ->].
  assert (Hrev : (exists s, outcome_of (generateStylistReview (base64 user)
                              (base64 clothing)) w = Normal s) \/
                 outcome_of (generateStylistReview (base64 user)
                               (base64 clothing)) w = Throw e).
  { rewrite outcome_generateStylistReview.
    rewrite outcome_generateTryOn in He.
    destruct (parseBase64 (base64 user)) as [ui | e'].
    - left. rewrite Hc. destruct (generateContent w _); eauto.
    - right. injection He as ->. reflexivity. }
  exists e. split; [| reflexivity].
  destruct Hrev as [[s ->] | ->]; simpl rejection.
  - rewrite (first_rejection_same _ _ e); [reflexivity | | reflexivity].
    intros [| [| [| i]]] x; simpl; congruence || (destruct i; congruence).
  - rewrite (first_rejection_same _ _ e); [reflexivity | | reflexivity].
    intros [| [| [| i]]] x; simpl; congruence || (destruct i; congruence).
Qed.

Lemma fan_out_adapter st w user clothing :
  forallb is_adapter_event (trace (fan_out st user clothing) w) = true.
Proof.
  unfold fan_out. rewrite trace_Promise_all3.
  destruct (trace_generateTryOn (base64 user) (base64 clothing)
              (instructions st) (selected_pose st) w) as (t1 & -> & H1).
  destruct (trace_generateStyleRecommendations (base64 clothing) w)
    as (t2 & -> & H2).
  destruct (trace_generateStylistReview (base64 user) (base64 clothing) w)
    as (t3 & -> & H3).
  rewrite !forallb_app. simpl.
  now rewrite !quiet_is_adapter.
Qed.

(** C3. When the gate lets the garment through and [generateTryOn] fails, the
    workflow ends in the Error state with that error's message and with no
    result, whatever the two other calls returned. *)
Theorem tryOn_failure_fails_cycle
    (st : AppState) (w : World) (user clothing : ImageFile)
    (verdict : json) (e : JsError) :
  userImage st = Some user ->
  clothingImage st = Some clothing ->
  outcome_of (validateClothingSafety (base64 clothing)) w = Normal verdict ->
  gate_passes verdict = true ->
  outcome_of (generateTryOn (base64 user) (base64 clothing)
                (instructions st) (selected_pose st)) w = Throw e ->
  status (run_handler (handleTryOn st) w st) = ERROR /\
  error (run_handler (handleTryOn st) w st) = Some (message e) /\
  result (run_handler (handleTryOn st) w st) = None.
Proof.
  intros Hu Hc Hv Hpass He.
  destruct (validateClothingSafety_Normal _ _ _ Hv) as [img Himg].
  destruct (fan_out_rejects st w user clothing img e Himg He)
    as (err & Hout & Hmsg).
  pose proof (generateTryOn_Throw_nonempty _ _ _ _ _ _ He) as Hne.
  destruct (trace_validateClothingSafety (base64 clothing) w) as [_ Had].
  unfold run_handler.
  rewrite (handleTryOn_passed st w user clothing verdict Hu Hc Hv Hpass), Hout.
  rewrite !fold_left_app, (adapter_events_frame _ _ Had),
    (adapter_events_frame _ _ (fan_out_adapter st w user clothing)).
  simpl. unfold message_or. rewrite Hmsg, Hne. auto.
Qed.

(** What [generateTryOn] returns it has read from two well-formed images. *)
Lemma generateTryOn_Normal u c i p w r :
  outcome_of (generateTryOn u c i p) w = Normal r ->
  exists ui ci, parseBase64 u = Normal ui /\ parseBase64 c = Normal ci.
Proof.
  rewrite outcome_generateTryOn.
  destruct (parseBase64 u) as [ui | ?]; [| discriminate].
  destruct (parseBase64 c) as [ci | ?]; [| discriminate].
  eauto.
Qed.

(** On well-formed images the stylist's review never rejects, and a failing
    backend gives the fallback. *)
Lemma generateStylistReview_degrades u c ui ci w :
  parseBase64 u = Normal ui ->
  parseBase64 c = Normal ci ->
  (exists s, outcome_of (generateStylistReview u c) w = Normal s) /\
  (request_failed (generateContent w (review_request ui ci)) = true ->
   outcome_of (generateStylistReview u c) w = Normal review_fallback).
Proof.
  intros Hu Hc. rewrite outcome_generateStylistReview, Hu, Hc.
  destruct (generateContent w _) as [e0 | r]; split; eauto; discriminate.
Qed.

(** On a well-formed image the recommendations never reject, and a failing
    backend, rejecting the request or answering with a text that is not
    JSON, gives the empty list. *)
Lemma generateStyleRecommendations_degrades c ci w :
  parseBase64 c = Normal ci ->
  (exists v, outcome_of (generateStyleRecommendations c) w = Normal v) /\
  (answer_failed (generateContent w (recommendations_request ci)) = true ->
   outcome_of (generateStyleRecommendations c) w = Normal (JArr [])).
Proof.
  intros Hc. rewrite outcome_generateStyleRecommendations, Hc.
  unfold answer_failed.
  destruct (generateContent w _) as [e0 | r]; split; eauto.
  - destruct (truthy_text _); [destruct (JSON_parse _) |]; eauto.
  - destruct (truthy_text _); [destruct (JSON_parse _) |];
      simpl; intros H; reflexivity || discriminate H.
Qed.

(** C4, as the code has it. The two supplementary operations reject on a
    malformed image and on nothing else: on well-formed images they always
    fulfil, and every failure of the backend, a rejected request and for the
    recommendations also an answer whose text is not JSON, gives the
    fallback comment and the empty list; so a cycle in which [generateTryOn]
    succeeds ends in Success with the image and with what the two
    returned. *)
Theorem supplementary_calls_degrade (w : World) :
  (forall u c e,
     outcome_of (generateStylistReview u c) w = Throw e ->
     e = format_error) /\
  (forall c e,
     outcome_of (generateStyleRecommendations c) w = Throw e ->
     e = format_error) /\
  (forall u c ui ci,
     parseBase64 u = Normal ui -> parseBase64 c = Normal ci ->
     (exists s, outcome_of (generateStylistReview u c) w = Normal s) /\
     (request_failed (generateContent w (review_request ui ci)) = true ->
      outcome_of (generateStylistReview u c) w = Normal review_fallback)) /\
  (forall c ci,
     parseBase64 c = Normal ci ->
     (exists v, outcome_of (generateStyleRecommendations c) w = Normal v) /\
     (answer_failed (generateContent w (recommendations_request ci)) = true ->
      outcome_of (generateStyleRecommendations c) w = Normal (JArr []))) /\
  (forall st user clothing verdict r,
     userImage st = Some user ->
     clothingImage st = Some clothing ->
     outcome_of (validateClothingSafety (base64 clothing)) w
     = Normal verdict ->
     gate_passes verdict = true ->
     outcome_of (generateTryOn (base64 user) (base64 clothing)
                   (instructions st) (selected_pose st)) w = Normal r ->
     exists ui ci recs review,
       parseBase64 (base64 user) = Normal ui /\
       parseBase64 (base64 clothing) = Normal ci /\
       outcome_of (generateStyleRecommendations (base64 clothing)) w
       = Normal recs /\
       outcome_of (generateStylistReview (base64 user) (base64 clothing)) w
       = Normal review /\
       (answer_failed (generateContent w (recommendations_request ci)) = true ->
        recs = JArr []) /\
       (request_failed (generateContent w (review_request ui ci)) = true ->
        review = review_fallback) /\
       status (run_handler (handleTryOn st) w st) = SUCCESS /\
       result (run_handler (handleTryOn st) w st) =
       Some {| imageUrl := Some (tryOn_imageUrl r);
               feedback := Some review;
               recommendations := Some recs |}).
Proof.
  split; [| split; [| split; [| split]]].
  - intros u c e. rewrite outcome_generateStylistReview.
    destruct (parseBase64 u) eqn:Hu.
    2: { intros E; injection E as <-. exact (parseBase64_Throw _ _ Hu). }
    destruct (parseBase64 c) eqn:Hc.
    2: { intros E; injection E as <-. exact (parseBase64_Throw _ _ Hc). }
    destruct (generateContent w _); discriminate.
  - intros c e. rewrite outcome_generateStyleRecommendations.
    destruct (parseBase64 c) eqn:Hc.
    2: { intros E; injection E as <-. exact (parseBase64_Throw _ _ Hc). }
    destruct (generateContent w _); [discriminate |].
    destruct (truthy_text _); [destruct (JSON_parse _) |]; discriminate.
  - intros u c ui ci. apply generateStylistReview_degrades.
  - intros c ci. apply generateStyleRecommendations_degrades.
  - intros st user clothing verdict r Hu Hc Hv Hpass Hr.
    destruct (generateTryOn_Normal _ _ _ _ _ _ Hr) as (ui & ci & Hpu & Hpc).
    destruct (generateStyleRecommendations_degrades _ ci w Hpc)
      as [[recs Hrecs] Hrecs0].
    destruct (generateStylistReview_degrades _ _ ui ci w Hpu Hpc)
      as [[review Hrev] Hrev0].
    exists ui, ci, recs, review.
    do 4 (split; [assumption |]).
    split; [intros He; specialize (Hrecs0 He); congruence |].
    split; [intros He; specialize (Hrev0 He); congruence |].
    destruct (trace_validateClothingSafety (base64 clothing) w) as [_ Had].
    unfold run_handler.
    rewrite (handleTryOn_passed st w user clothing verdict Hu Hc Hv Hpass).
    assert (Hout : outcome_of (fan_out st user clothing) w
                   = Normal (r, recs, review)).
    { unfold fan_out. now rewrite outcome_Promise_all3, Hr, Hrecs, Hrev. }
    rewrite Hout, !fold_left_app, (adapter_events_frame _ _ Had),
      (adapter_events_frame _ _ (fan_out_adapter st w user clothing)).
    simpl. auto.
Qed.

(** C2, as the code has it. With a well-formed garment image the gate
    answers as follows: a backend error and a text that is not JSON both
    raise the unavailability error; a response without text gives the
    default verdict, which is a refusal; a text that is JSON is returned as
    it was parsed. *)
Theorem safety_gate_outcomes (c : jsstring) (w : World) (img : InlineData) :
  parseBase64 c = Normal img ->
  (forall e, generateContent w (safety_request img) = Rejects e ->
     outcome_of (validateClothingSafety c) w = Throw service_unavailable) /\
  (forall r, generateContent w (safety_request img) = Responds r ->
     truthy_text (response_text r) = false ->
     outcome_of (validateClothingSafety c) w = Normal unverified) /\
  (forall r, generateContent w (safety_request img) = Responds r ->
     truthy_text (response_text r) = true ->
     JSON_parse (text_or_undefined (response_text r)) = None ->
     outcome_of (validateClothingSafety c) w = Throw service_unavailable) /\
  (forall r v, generateContent w (safety_request img) = Responds r ->
     truthy_text (response_text r) = true ->
     JSON_parse (text_or_undefined (response_text r)) = Some v ->
     outcome_of (validateClothingSafety c) w = Normal v) /\
  gate_passes unverified = false.
Proof.
  intros Hc. rewrite outcome_validateClothingSafety, Hc.
  repeat split.
  - now intros e ->.
  - now intros r -> ->.
  - now intros r -> -> ->.
  - now intros r v -> -> ->.
Qed.

(** ** Applying a recommendation *)

Lemma trace_handleApplyRecommendation rec w :
  trace (handleApplyRecommendation rec) w =
  SetState (setStatus PROCESSING) :: trace (generateProductImage rec) w ++
  match outcome_of (generateProductImage rec) w with
  | Normal url =>
      [SetState (setClothingImage (Some
         {| file := {| name := itemName rec ++ str ".png" |};
            previewUrl := url; base64 := url |}));
       SetState (setClothingModelUrl None);
       SetState (setInstructions
         (str "Trying on " ++ colorHex rec ++ str " " ++ itemName rec));
       SetState (setResult None);
       SetState (setStatus IDLE);
       ScrollToTop]
  | Throw _ =>
      [SetState (setError (Some visualize_error)); SetState (setStatus IDLE)]
  end.
Proof.
  unfold handleApplyRecommendation. async.
  destruct (outcome_of (generateProductImage rec) w); async; simpl;
    rewrite ?app_nil_r; reflexivity.
Qed.

Lemma generateProductImage_frame rec w st :
  fold_left apply_event (trace (generateProductImage rec) w) st = st.
Proof.
  destruct (trace_generateProductImage rec w) as (t & -> & Ht).
  now apply call_then_quiet_frame.
Qed.

(** C6. When the product image is synthesized, applying the recommendation
    makes it the garment, seeds the instructions with the item's colour and
    name, drops the result and leaves the workflow Idle. *)
Theorem apply_recommendation_success
    (rec : Recommendation) (w : World) (st : AppState) (url : jsstring) :
  outcome_of (generateProductImage rec) w = Normal url ->
  clothingImage (run_handler (handleApplyRecommendation rec) w st) =
    Some {| file := {| name := itemName rec ++ str ".png" |};
            previewUrl := url; base64 := url |} /\
  instructions (run_handler (handleApplyRecommendation rec) w st) =
    str "Trying on " ++ colorHex rec ++ str " " ++ itemName rec /\
  occurs_in (colorHex rec)
    (instructions (run_handler (handleApplyRecommendation rec) w st)) /\
  occurs_in (itemName rec)
    (instructions (run_handler (handleApplyRecommendation rec) w st)) /\
  result (run_handler (handleApplyRecommendation rec) w st) = None /\
  status (run_handler (handleApplyRecommendation rec) w st) = IDLE.
Proof.
  intros Hurl. unfold run_handler.
  rewrite trace_handleApplyRecommendation, Hurl.
  simpl fold_left. rewrite fold_left_app, generateProductImage_frame.
  simpl. repeat split.
  - exists (str "Trying on "), (str " " ++ itemName rec). reflexivity.
  - exists (str "Trying on " ++ colorHex rec ++ str " "), [].
    now rewrite app_nil_r, <- !app_assoc.
Qed.

(** C7. When the synthesis fails, applying the recommendation leaves the
    workflow Idle with the fixed message, and the garment, the person and
    the instructions are what they were. *)
Theorem apply_recommendation_failure
    (rec : Recommendation) (w : World) (st : AppState) (e : JsError) :
  outcome_of (generateProductImage rec) w = Throw e ->
  status (run_handler (handleApplyRecommendation rec) w st) = IDLE /\
  error (run_handler (handleApplyRecommendation rec) w st) =
    Some (str "Could not visualize item. Please try again.") /\
  clothingImage (run_handler (handleApplyRecommendation rec) w st) =
    clothingImage st /\
  userImage (run_handler (handleApplyRecommendation rec) w st) =
    userImage st /\
  instructions (run_handler (handleApplyRecommendation rec) w st) =
    instructions st.
Proof.
  intros He. unfold run_handler.
  rewrite trace_handleApplyRecommendation, He.
  simpl fold_left. rewrite fold_left_app, generateProductImage_frame.
  simpl. auto.
Qed.

(** ** The image of a response *)

Lemma last_blob_cons (bs : list Blob) (b : Blob) :
  last_blob (b :: bs) =
  match last_blob bs with Some x => Some x | None => Some b end.
Proof.
  revert b; induction bs as [| b' bs IH]; intros b; [reflexivity |].
  change (last_blob (b :: b' :: bs)) with (last_blob (b' :: bs)).
  rewrite (IH b'). now destruct (last_blob bs).
Qed.

Lemma fold_scan_image (ps : list Part) (init : option jsstring) :
  fold_left scan_image ps init =
  match last_blob (inline_blobs ps) with
  | Some b => Some (png_url b)
  | None => init
  end.
Proof.
  revert init; induction ps as [| p ps IH]; intros init; [reflexivity |].
  simpl fold_left. rewrite IH. unfold inline_blobs; simpl flat_map.
  fold (inline_blobs ps). unfold scan_image.
  destruct (part_inlineData p) as [b |]; [| reflexivity].
  change ([b] ++ inline_blobs ps) with (b :: inline_blobs ps).
  rewrite last_blob_cons. now destruct (last_blob (inline_blobs ps)).
Qed.

Lemma first_image_none (ps : list Part) :
  inline_blobs ps = [] -> first_image ps = None.
Proof.
  unfold first_image. induction ps as [| p ps IH]; [reflexivity |].
  unfold inline_blobs; simpl. fold (inline_blobs ps).
  destruct (part_inlineData p) as [b |]; [discriminate | exact IH].
Qed.

(** The only request [generateTryOn] makes is the try-on request built from
    its two parsed images, and the outcome logged with it is the backend's
    answer to it. *)
Lemma generateTryOn_backend u c i p w req o :
  In (Backend req o) (trace (generateTryOn u c i p) w) ->
  exists ui ci, parseBase64 u = Normal ui /\ parseBase64 c = Normal ci /\
                req = tryOn_request ui ci i p /\
                generateContent w req = o.
Proof.
  unfold generateTryOn. run_adapter; simpl; intros H;
    repeat match type of H with
      | _ \/ _ => destruct H as [H | H]
      | False => contradiction
      | _ = _ => try discriminate H
      end;
    injection H as <- <-; eauto 8.
Qed.

(** C10. Whenever the backend's response to the try-on request holds an
    inline image, [generateTryOn] returns a URL labelled [image/png] whose
    payload is the data of the last inline image of the response, whatever
    the media type that part declares. *)
Theorem generateTryOn_returns_last_image
    (u c i : jsstring) (p : Pose) (w : World) (req : Request) (r : Response)
    (blob : Blob) :
  In (Backend req (Responds r)) (trace (generateTryOn u c i p) w) ->
  last_blob (inline_blobs (response_parts r)) = Some blob ->
  outcome_of (generateTryOn u c i p) w =
  Normal {| tryOn_imageUrl :=
              str "data:image/png;base64," ++ text_or_undefined (blob_data blob) |}.
Proof.
  intros Hin Hlast.
  apply generateTryOn_backend in Hin as (ui & ci & Hu & Hc & -> & Hr).
  rewrite outcome_generateTryOn, Hu, Hc, Hr. cbv zeta.
  rewrite fold_scan_image, Hlast. reflexivity.
Qed.

(** ** The product image *)

(** C8, as the code has it. Whatever goes wrong, [generateProductImage]
    throws one and the same error; when the response holds text and no
    image, the text (fenced blocks removed, trimmed, cut to fifty code
    units) goes to the console only. *)
Theorem product_image_failure_is_generic (rec : Recommendation) (w : World) :
  (forall e, outcome_of (generateProductImage rec) w = Throw e ->
             e = new_Error (str "Failed to visualize the recommended item.")) /\
  (forall r textPart,
     generateContent w (product_request rec) = Responds r ->
     inline_blobs (response_parts r) = [] ->
     find_text (response_parts r) = Some textPart ->
     outcome_of (generateProductImage rec) w =
       Throw (new_Error (str "Failed to visualize the recommended item.")) /\
     In (Console error_level
           [LogText (str "Product Generation Error:");
            LogError (new_Error
              (str "Model returned text: "
               ++ substring0 50
                    (trim (remove_fenced (str "```") (str "```") textPart))
               ++ str "..."))])
        (trace (generateProductImage rec) w)).
Proof.
  split.
  - intros e. rewrite outcome_generateProductImage.
    unfold visualization_failed.
    destruct (generateContent w _) as [e0 | r];
      [| destruct (first_image _)]; congruence.
  - intros r textPart Hr Hno Htext. split.
    + rewrite outcome_generateProductImage, Hr, (first_image_none _ Hno).
      reflexivity.
    + apply first_image_none in Hno.
      unfold generateProductImage. run_adapter. simpl. auto 6.
Qed.

(** ** The pose of a generation request *)

Lemma quiet_events_ok (cap : AppState) (t : list Event) :
  forallb is_quiet t = true -> Forall (event_ok cap) t.
Proof.
  induction t as [| e t IH]; simpl; intros H; constructor.
  - destruct e; simpl in *; try discriminate; exact I.
  - apply IH. now apply andb_true_iff in H as [_ H].
Qed.

Lemma fan_out_events_ok st w user clothing :
  Forall (event_ok st) (trace (fan_out st user clothing) w).
Proof.
  unfold fan_out. rewrite trace_Promise_all3.
  destruct (trace_generateTryOn (base64 user) (base64 clothing)
              (instructions st) (selected_pose st) w) as (t1 & -> & H1).
  destruct (trace_generateStyleRecommendations (base64 clothing) w)
    as (t2 & -> & H2).
  destruct (trace_generateStylistReview (base64 user) (base64 clothing) w)
    as (t3 & -> & H3).
  repeat (apply Forall_app; split);
    (constructor; [simpl; auto | now apply quiet_events_ok]).
Qed.

Lemma handleTryOn_events_ok st w :
  Forall (event_ok st) (trace (handleTryOn st) w).
Proof.
  destruct (userImage st) as [user |] eqn:Hu.
  2: { unfold handleTryOn. rewrite Hu. constructor. }
  destruct (clothingImage st) as [clothing |] eqn:Hc.
  2: { unfold handleTryOn. rewrite Hu, Hc. constructor. }
  assert (Hgate : Forall (event_ok st)
                    (trace (validateClothingSafety (base64 clothing)) w)).
  { destruct (trace_validateClothingSafety_quiet (base64 clothing) w)
      as (t & -> & Ht).
    constructor; [exact I | now apply quiet_events_ok]. }
  destruct (outcome_of (validateClothingSafety (base64 clothing)) w)
    as [verdict | e] eqn:Hv.
  - destruct (gate_passes verdict) eqn:Hpass.
    + rewrite (handleTryOn_passed st w user clothing verdict Hu Hc Hv Hpass).
      repeat (apply Forall_app; split); auto using fan_out_events_ok.
      * repeat constructor.
      * destruct (outcome_of (fan_out st user clothing) w)
          as [[[r recs] review] | err]; repeat constructor.
    + destruct (handleTryOn_blocked st w user clothing Hu Hc) as [err ->].
      { rewrite Hv. exact Hpass. }
      repeat (apply Forall_app; split); auto; repeat constructor.
  - destruct (handleTryOn_blocked st w user clothing Hu Hc) as [err ->].
    { rewrite Hv. exact I. }
    repeat (apply Forall_app; split); auto; repeat constructor.
Qed.

Lemma range_value_bounds (raw : Z) : (0 <= range_value raw <= 360)%Z.
Proof. unfold range_value. lia. Qed.

(** Whatever a handler does respects the invariant of the state it closed
    over. *)
Lemma handler_events_ok st e w :
  Forall (event_ok st) (trace (handler_of st e) w).
Proof.
  destruct e; simpl handler_of.
  - async; repeat constructor.
  - destruct (truthy_text _); [constructor |].
    unfold handleClothingUpload.
    destruct image as [f |]; [destruct (is_model_name _) |];
      async; simpl; repeat constructor.
  - unfold handle3DSnapshot.
    destruct (truthy_text _); async; repeat constructor.
  - unfold clearClothing.
    destruct (truthy_text _); async; simpl; repeat constructor.
  - async; repeat constructor.
  - destruct (useCustomRotation st); async; repeat constructor;
      apply range_value_bounds.
  - async; repeat constructor.
  - destruct (_ || _); [constructor | apply handleTryOn_events_ok].
  - unfold handleReset.
    destruct (_ || _); async; simpl; repeat constructor.
  - destruct (status_eqb _ _); [| constructor].
    rewrite trace_handleApplyRecommendation.
    destruct (trace_generateProductImage rec w) as (t & -> & Ht).
    constructor; [exact I |].
    apply Forall_app; split.
    + constructor; [exact I | now apply quiet_events_ok].
    + destruct (outcome_of _ _); repeat constructor.
Qed.

Lemma apply_event_rotation_ok cap st e :
  rotation_ok st -> event_ok cap e -> rotation_ok (apply_event st e).
Proof.
  unfold rotation_ok. intros Hst He.
  destruct e as [| | | u |]; simpl; auto.
  destruct u; simpl; auto.
Qed.

Lemma advance_task_ok (i : nat) (ts : list Task) :
  Forall task_ok ts ->
  Forall task_ok (snd (advance_task i ts)) /\
  match fst (advance_task i ts) with
  | Some (cap, e) => rotation_ok cap /\ event_ok cap e
  | None => True
  end.
Proof.
  revert i; induction ts as [| t ts IH]; intros i Hts.
  - destruct i; simpl; auto.
  - inversion Hts as [| ? ? [Hcap Hpend] Hrest]; subst.
    destruct i as [| j]; cbn [advance_task].
    + destruct (pending t) as [| e rest]; simpl; [auto |].
      inversion Hpend; subst.
      split; [| auto].
      constructor; [| assumption]. split; assumption.
    + specialize (IH j Hrest).
      destruct (advance_task j ts) as [r ts']; simpl in *.
      destruct IH as [IH1 IH2]. split; [| exact IH2].
      constructor; [split; assumption | assumption].
Qed.

Lemma sys_step_ok (s : System) (a : Action) :
  system_ok s -> system_ok (sys_step s a).
Proof.
  intros (Hcur & Htasks & Hhist). destruct a as [e w | i]; simpl.
  - split; [exact Hcur | split; [| exact Hhist]]. simpl.
    apply Forall_app; split; [assumption |].
    constructor; [| constructor].
    split; simpl; [assumption | apply handler_events_ok].
  - pose proof (advance_task_ok i (tasks s) Htasks) as [Hts Hev].
    destruct (advance_task i (tasks s)) as [[[cap e] |] ts]; simpl in *.
    + destruct Hev as [Hcap He].
      split; [exact (apply_event_rotation_ok cap _ e Hcur He) |].
      split; [exact Hts |]. simpl.
      apply Forall_app; split; [assumption |].
      constructor; [split; assumption | constructor].
    + split; [exact Hcur | split; [exact Hts | exact Hhist]].
Qed.

Lemma run_ok (actions : list Action) : system_ok (run actions).
Proof.
  unfold run.
  assert (H0 : system_ok initial_system).
  { split; [unfold rotation_ok; simpl; lia | split; constructor]. }
  revert H0. generalize initial_system.
  induction actions as [| a actions IH]; intros s Hs; simpl; [exact Hs |].
  apply IH. now apply sys_step_ok.
Qed.

(** C9, as the code has it. Whatever the user does and in whatever order the
    handlers in flight proceed, the pose of every call of [generateTryOn] is
    the one selected in the state its handler closed over when the user
    asked for the generation, and it is the sentinel or an angle from 0 to
    360, both included. *)
Theorem pose_sent_is_selected_and_in_range
    (actions : list Action) (cap : AppState) (u c i : jsstring) (p : Pose) :
  In (cap, Invoke (generateTryOn_call u c i p)) (history (run actions)) ->
  p = selected_pose cap /\ pose_in_range p.
Proof.
  intros Hin.
  destruct (run_ok actions) as (_ & _ & Hhist).
  rewrite Forall_forall in Hhist.
  destruct (Hhist _ Hin) as [Hcap Hev]. simpl in Hcap, Hev.
  split; [exact Hev |].
  subst p. unfold selected_pose.
  destruct (useCustomRotation cap); simpl; [exact Hcap | exact I].
Qed.

(** * The statements at sample inputs *)

Import Sample.

Lemma rejected_garment_stops_workflow_witness :
  Forall no_generation (trace (handleTryOn ready) (world swimwear)) /\
  status (run_handler (handleTryOn ready) (world swimwear) ready) = ERROR /\
  result (run_handler (handleTryOn ready) (world swimwear) ready) = None.
Proof.
  apply (rejected_garment_stops_workflow ready (world swimwear) person garment).
  - reflexivity.
  - reflexivity.
  - vm_compute. reflexivity.
Defined.

(** A gate that answers in prose does not return the default refusal: it
    raises the unavailability error. *)
Lemma gate_raises_on_unparseable_text :
  generateContent (world chatty_gate) (safety_request garment_data)
    = text_response (str "Sorry, I cannot judge this image.") /\
  JSON_parse (str "Sorry, I cannot judge this image.") = None /\
  outcome_of (validateClothingSafety (base64 garment)) (world chatty_gate)
    = Throw service_unavailable.
Proof. repeat split; vm_compute; reflexivity. Qed.

Lemma safety_gate_outcomes_witness :
  outcome_of (validateClothingSafety (base64 garment)) (world silent_gate)
    = Normal unverified /\
  outcome_of (validateClothingSafety (base64 garment)) (world everything_down)
    = Throw service_unavailable.
Proof.
  split.
  - destruct (safety_gate_outcomes (base64 garment) (world silent_gate)
                garment_data eq_refl) as (_ & H & _).
    exact (H _ eq_refl eq_refl).
  - destruct (safety_gate_outcomes (base64 garment) (world everything_down)
                garment_data eq_refl) as (H & _).
    exact (H _ eq_refl).
Defined.

Lemma tryOn_failure_fails_cycle_witness :
  status (run_handler (handleTryOn ready) (world refused) ready) = ERROR /\
  error (run_handler (handleTryOn ready) (world refused) ready)
    = Some (refusal_message (str "I can't do that")) /\
  result (run_handler (handleTryOn ready) (world refused) ready) = None.
Proof.
  apply (tryOn_failure_fails_cycle ready (world refused) person garment
           (JObj [(str "valid", JBool true)])
           (new_Error (refusal_message (str "I can't do that")))).
  - reflexivity.
  - reflexivity.
  - vm_compute. reflexivity.
  - reflexivity.
  - vm_compute. reflexivity.
Defined.

(** With the backend down and an image whose data URL has an empty payload
    (the reading of an empty file), the two supplementary operations reject
    instead of returning their fallbacks. *)
Lemma supplementary_calls_raise_on_malformed_image :
  outcome_of (generateStylistReview (str "data:image/png;base64,")
                (base64 garment))
    (world everything_down) = Throw format_error /\
  outcome_of (generateStyleRecommendations (str "data:image/png;base64,"))
    (world everything_down) = Throw format_error.
Proof. split; vm_compute; reflexivity. Qed.

Lemma supplementary_calls_degrade_witness :
  status (run_handler (handleTryOn ready) (world garbled) ready) = SUCCESS /\
  result (run_handler (handleTryOn ready) (world garbled) ready) =
  Some {| imageUrl := Some (str "data:image/png;base64,CCCC");
          feedback := Some review_fallback;
          recommendations := Some (JArr []) |}.
Proof.
  destruct (supplementary_calls_degrade (world garbled))
    as (_ & _ & _ & _ & H).
  destruct (H ready person garment (JObj [(str "valid", JBool true)])
              {| tryOn_imageUrl := str "data:image/png;base64,CCCC" |})
    as (ui & ci & recs & review & _ & _ & _ & _ & Hrecs & Hrev & Hst & Hres).
  - reflexivity.
  - reflexivity.
  - vm_compute. reflexivity.
  - reflexivity.
  - vm_compute. reflexivity.
  - rewrite (Hrecs eq_refl) in Hres.
    rewrite (Hrev eq_refl) in Hres.
    split; [exact Hst | exact Hres].
Defined.

Lemma apply_recommendation_success_witness :
  clothingImage (run_handler (handleApplyRecommendation scarf)
                   (world all_fine) ready) =
    Some {| file := {| name := str "Silk Scarf.png" |};
            previewUrl := str "data:image/png;base64,DDDD";
            base64 := str "data:image/png;base64,DDDD" |} /\
  instructions (run_handler (handleApplyRecommendation scarf)
                  (world all_fine) ready) =
    str "Trying on #AA3311 Silk Scarf" /\
  status (run_handler (handleApplyRecommendation scarf)
            (world all_fine) ready) = IDLE.
Proof.
  destruct (apply_recommendation_success scarf (world all_fine) ready
              (str "data:image/png;base64,DDDD"))
    as (Hc & Hi & _ & _ & _ & Hs).
  - vm_compute. reflexivity.
  - split; [exact Hc | split; [exact Hi | exact Hs]].
Defined.

Lemma apply_recommendation_failure_witness :
  status (run_handler (handleApplyRecommendation scarf)
            (world everything_down) ready) = IDLE /\
  error (run_handler (handleApplyRecommendation scarf)
           (world everything_down) ready) =
    Some (str "Could not visualize item. Please try again.") /\
  clothingImage (run_handler (handleApplyRecommendation scarf)
                   (world everything_down) ready) = Some garment.
Proof.
  destruct (apply_recommendation_failure scarf (world everything_down) ready
              visualization_failed)
    as (Hs & He & Hc & _ & _).
  - vm_compute. reflexivity.
  - split; [exact Hs | split; [exact He | exact Hc]].
Defined.

(** The backend answers the product request in words: the error thrown is
    the generic one, and the words are not in its message. *)
Lemma product_image_error_hides_text :
  generateContent (world product_refused) (product_request scarf)
    = parts_response [text_part "I cannot draw that."] /\
  outcome_of (generateProductImage scarf) (world product_refused)
    = Throw (new_Error (str "Failed to visualize the recommended item.")) /\
  includes (str "I cannot draw that.")
    (str "Failed to visualize the recommended item.") = false.
Proof. repeat split; vm_compute; reflexivity. Qed.

Lemma product_image_failure_is_generic_witness :
  outcome_of (generateProductImage scarf) (world product_refused) =
    Throw (new_Error (str "Failed to visualize the recommended item.")) /\
  In (Console error_level
        [LogText (str "Product Generation Error:");
         LogError (new_Error (str "Model returned text: I cannot draw that...."))])
     (trace (generateProductImage scarf) (world product_refused)).
Proof.
  destruct (product_image_failure_is_generic scarf (world product_refused))
    as [_ H].
  exact (H {| candidates := Some [{| content := Some {| parts :=
                Some [text_part "I cannot draw that."] |} |}];
              response_text := None |}
           (str "I cannot draw that.") eq_refl eq_refl eq_refl).
Defined.

(** The slider's right end is 360, and that is the pose sent. *)
Lemma pose_360_is_sent :
  In (turned,
      Invoke (generateTryOn_call (base64 person) (base64 garment) []
                (degrees 360)))
     (history (run full_turn)) /\
  ~ pose_in_spec_range (degrees 360).
Proof.
  split.
  - vm_compute. do 10 right. left. reflexivity.
  - simpl. lia.
Qed.

Lemma pose_sent_is_selected_and_in_range_witness :
  degrees 360 = selected_pose turned /\ pose_in_range (degrees 360).
Proof.
  apply (pose_sent_is_selected_and_in_range full_turn turned
           (base64 person) (base64 garment) []).
  vm_compute. do 10 right. left. reflexivity.
Defined.

Lemma generateTryOn_returns_last_image_witness :
  outcome_of (generateTryOn (base64 person) (base64 garment) [] original)
    (world two_images) =
  Normal {| tryOn_imageUrl := str "data:image/png;base64,LAST" |}.
Proof.
  apply (generateTryOn_returns_last_image (base64 person) (base64 garment)
           [] original (world two_images)
           (tryOn_request person_data garment_data [] original)
           two_images_response
           {| blob_mimeType := Some (str "image/webp");
              blob_data := Some (str "LAST") |}).
  - right. left. reflexivity.
  - reflexivity.
Defined.

(** ** Two scenarios of the specification *)

(** A garment rejected for swimwear ends in Error with that reason. *)
Example swimwear_is_reported :
  status (run_handler (handleTryOn ready) (world swimwear) ready) = ERROR /\
  error (run_handler (handleTryOn ready) (world swimwear) ready)
    = Some (str "Safety Alert: contains swimwear").
Proof. split; vm_compute; reflexivity. Qed.

(** When everything works the cycle ends in Success with the image, the
    parsed recommendations and the comment. *)
Example everything_works :
  run_handler (handleTryOn ready) (world all_fine) ready =
  {| userImage := Some person; clothingImage := Some garment;
     clothingModelUrl := None; instructions := []; rotation := 0;
     useCustomRotation := false; status := SUCCESS;
     result := Some {|
       imageUrl := Some (str "data:image/png;base64,CCCC");
       feedback := Some (str "Lovely.");
       recommendations :=
         Some (JArr [JObj [(str "itemName", JStr (str "Silk Scarf"))]]) |};
     error := None |}.
Proof. vm_compute. reflexivity. Qed.

(** * Further properties of the adapter *)

(** ** The encoder, both ways *)

(** X1. What [parseBase64] returns, encoded again, is the string it read. *)
Theorem parseBase64_then_encode (s : jsstring) (img : InlineData) :
  parseBase64 s = Normal img -> data_url img = s.
Proof.
  intros H. apply parseBase64_Normal in H as (_ & _ & _ & _ & ->).
  reflexivity.
Qed.

Lemma parseBase64_then_encode_witness :
  data_url Sample.person_data = base64 Sample.person.
Proof.
  apply (parseBase64_then_encode (base64 Sample.person) Sample.person_data).
  vm_compute. reflexivity.
Defined.

Lemma greedy_dots_none {R} (s : jsstring)
    (k : jsstring -> jsstring -> option R) :
  (forall capture rest,
     s = capture ++ rest -> capture <> [] -> forallb dot capture = true ->
     k capture rest = None) ->
  greedy_dots s k = None.
Proof.
  intros Hall. destruct (greedy_dots s k) as [r |] eqn:H; [| reflexivity].
  apply greedy_dots_sound in H as (capture & rest & Hs & Hne & Hd & Hk).
  rewrite (Hall capture rest Hs Hne Hd) in Hk. discriminate.
Qed.

(** [(.+)] takes a capture when no longer one lets the rest match. *)
Lemma greedy_dots_exact {R} (m rest : jsstring)
    (k : jsstring -> jsstring -> option R) (r : R) :
  m <> [] -> forallb dot m = true ->
  k m rest = Some r ->
  (forall x y, x <> [] -> rest = x ++ y -> forallb dot x = true ->
               k (m ++ x) y = None) ->
  greedy_dots (m ++ rest) k = Some r.
Proof.
  revert k; induction m as [| c m IH]; intros k Hne Hdots Hk Hlonger;
    [congruence |].
  simpl in Hdots. apply andb_true_iff in Hdots as [Hc Hdots].
  rewrite <- app_comm_cons. cbn [greedy_dots]. rewrite Hc.
  destruct m as [| c' m].
  - simpl app. rewrite greedy_dots_none; [exact Hk |].
    intros capture y Hrest Hcap Hd. exact (Hlonger capture y Hcap Hrest Hd).
  - rewrite (IH (fun capture s => k (c :: capture) s));
      [reflexivity | discriminate | assumption | assumption |].
    intros x y Hx Hrest Hd. exact (Hlonger x y Hx Hrest Hd).
Qed.

Lemma includes_behind (p x y : jsstring) :
  starts_with p y = true -> includes p (x ++ y) = true.
Proof.
  intros H. unfold includes. induction x as [| c x IH]; simpl app.
  - destruct y; simpl index_of; rewrite H; reflexivity.
  - cbn [index_of]. destruct (starts_with p (c :: x ++ y)); [reflexivity |].
    destruct (index_of p (x ++ y)); [reflexivity | discriminate].
Qed.

(** Behind the separator of a payload that holds none, no other separator
    starts. *)
Lemma no_later_separator (d x y : jsstring) :
  includes (str ";base64,") d = false ->
  x <> [] -> str ";base64," ++ d = x ++ y ->
  starts_with (str ";base64,") y = false.
Proof.
  intros Hd Hx E.
  destruct x as [| x1 [| x2 [| x3 [| x4 [| x5 [| x6 [| x7 [| x8 x']]]]]]]];
    [congruence | | | | | | | |];
    simpl in E; injection E as; subst; try reflexivity.
  destruct (starts_with (str ";base64,") y) eqn:Hy; [| reflexivity].
  now rewrite (includes_behind _ x' y Hy) in Hd.
Qed.

(** X2. An image whose payload holds no separator is read back as it was
    encoded. *)
Theorem encode_then_parseBase64 (img : InlineData) :
  mimeType img <> [] -> data img <> [] ->
  forallb dot (mimeType img) = true -> forallb dot (data img) = true ->
  includes (str ";base64,") (data img) = false ->
  parseBase64 (data_url img) = Normal img.
Proof.
  destruct img as [m d]; simpl. intros Hm Hd Hdm Hdd Hsep.
  unfold parseBase64, data_url; simpl mimeType; simpl data.
  assert (H : match_data_url (str "data:" ++ m ++ str ";base64," ++ d) =
              Some [str "data:" ++ m ++ str ";base64," ++ d; m; d]).
  { unfold match_data_url, literal. rewrite starts_with_app.
    change (skipn (List.length (str "data:"))
              (str "data:" ++ m ++ str ";base64," ++ d))
      with (m ++ str ";base64," ++ d).
    apply greedy_dots_exact; [exact Hm | exact Hdm | |].
    - rewrite starts_with_app.
      change (skipn (List.length (str ";base64,")) (str ";base64," ++ d))
        with d.
      rewrite <- (app_nil_r d) at 1.
      apply greedy_dots_exact; [exact Hd | exact Hdd | reflexivity |].
      intros x y Hx E. destruct x; [congruence | discriminate E].
    - intros x y Hx E _.
      now rewrite (no_later_separator d x y Hsep Hx E). }
  rewrite H. reflexivity.
Qed.

Lemma encode_then_parseBase64_witness :
  parseBase64 (data_url Sample.garment_data) = Normal Sample.garment_data.
Proof.
  apply (encode_then_parseBase64 Sample.garment_data);
    solve [discriminate | reflexivity].
Defined.

(** ** Requests to the backend *)

Lemma backend_requests_app (a b : list Event) :
  backend_requests (a ++ b) = backend_requests a ++ backend_requests b.
Proof. apply flat_map_app. Qed.

Lemma backend_requests_quiet_free (t : list Event) :
  forallb (fun e => match e with Backend _ _ => false | _ => true end) t
  = true ->
  backend_requests t = [].
Proof.
  induction t as [| e t IH]; simpl; [reflexivity |].
  intros H; apply andb_true_iff in H as [He Ht].
  destruct e; try discriminate; simpl; auto.
Qed.

Lemma malformed_image_requests u c i p w :
  parseBase64 u = Throw format_error ->
  backend_requests (trace (generateTryOn u c i p) w) = [] /\
  backend_requests (trace (generateStylistReview u c) w) = [].
Proof.
  intros Hu. split.
  - unfold generateTryOn. async. rewrite Hu. reflexivity.
  - unfold generateStylistReview. async. rewrite Hu. reflexivity.
Qed.

(** X3. An image that is no data URL is turned away before the backend is
    asked: none of the four operations that take images sends a request
    then. *)
Theorem malformed_image_sends_nothing (u c i : jsstring) (p : Pose)
    (w : World) :
  (parseBase64 c = Throw format_error ->
     backend_requests (trace (validateClothingSafety c) w) = [] /\
     backend_requests (trace (generateStyleRecommendations c) w) = []) /\
  (parseBase64 u = Throw format_error \/ parseBase64 c = Throw format_error ->
     backend_requests (trace (generateStylistReview u c) w) = [] /\
     backend_requests (trace (generateTryOn u c i p) w) = []).
Proof.
  split.
  - intros Hc. split.
    + unfold validateClothingSafety. async. rewrite Hc. reflexivity.
    + unfold generateStyleRecommendations. async. rewrite Hc. reflexivity.
  - intros H. split.
    + unfold generateStylistReview. async.
      destruct (parseBase64 u); [| reflexivity].
      destruct H as [H | H]; [discriminate |]. async. rewrite H. reflexivity.
    + unfold generateTryOn. async.
      destruct (parseBase64 u); [| reflexivity].
      destruct H as [H | H]; [discriminate |]. async. rewrite H. reflexivity.
Qed.

Lemma malformed_image_sends_nothing_witness :
  backend_requests
    (trace (validateClothingSafety (str "data:image/png;base64,"))
       (Sample.world Sample.all_fine)) = [] /\
  backend_requests
    (trace (generateTryOn (str "data:image/png;base64,")
              (base64 Sample.garment) [] original)
       (Sample.world Sample.all_fine)) = [].
Proof.
  destruct (malformed_image_sends_nothing (str "data:image/png;base64,")
              (str "data:image/png;base64,") [] original
              (Sample.world Sample.all_fine)) as [Hc _].
  destruct (malformed_image_sends_nothing (str "data:image/png;base64,")
              (base64 Sample.garment) [] original
              (Sample.world Sample.all_fine)) as [_ Hu].
  split.
  - exact (proj1 (Hc eq_refl)).
  - exact (proj2 (Hu (or_introl eq_refl))).
Defined.

Ltac count_requests :=
  run_adapter; simpl;
  repeat match goal with |- _ /\ _ => split end; lia.

Lemma gate_requests c w :
  List.length (backend_requests (trace (validateClothingSafety c) w)) <= 1.
Proof. unfold validateClothingSafety, JSON_parse_or_throw. count_requests. Qed.

Lemma review_requests u c w :
  List.length (backend_requests (trace (generateStylistReview u c) w)) <= 1.
Proof. unfold generateStylistReview. count_requests. Qed.

Lemma tryOn_requests u c i p w :
  List.length (backend_requests (trace (generateTryOn u c i p) w)) <= 1.
Proof. unfold generateTryOn. count_requests. Qed.

Lemma recommendations_requests c w :
  List.length (backend_requests (trace (generateStyleRecommendations c) w))
  <= 1.
Proof.
  unfold generateStyleRecommendations, JSON_parse_or_throw. count_requests.
Qed.

Lemma product_requests rec w :
  List.length (backend_requests (trace (generateProductImage rec) w)) <= 1.
Proof. unfold generateProductImage. count_requests. Qed.

(** X4. No operation of the adapter asks the backend twice: there is no
    retry. *)
Theorem adapter_sends_at_most_one_request
    (u c i : jsstring) (p : Pose) (rec : Recommendation) (w : World) :
  List.length (backend_requests (trace (validateClothingSafety c) w)) <= 1 /\
  List.length (backend_requests (trace (generateStylistReview u c) w)) <= 1 /\
  List.length (backend_requests (trace (generateTryOn u c i p) w)) <= 1 /\
  List.length (backend_requests (trace (generateStyleRecommendations c) w))
    <= 1 /\
  List.length (backend_requests (trace (generateProductImage rec) w)) <= 1.
Proof.
  repeat split.
  - apply gate_requests.
  - apply review_requests.
  - apply tryOn_requests.
  - apply recommendations_requests.
  - apply product_requests.
Qed.

(** ** The gate fails closed *)

(** X5. The gate lets a garment through only when the backend has answered the
    gate's request with a text that is JSON and whose [valid] is truthy. *)
Theorem gate_passes_only_on_backend_say_so
    (c : jsstring) (w : World) (verdict : json) :
  outcome_of (validateClothingSafety c) w = Normal verdict ->
  gate_passes verdict = true ->
  exists img r text,
    parseBase64 c = Normal img /\
    generateContent w (safety_request img) = Responds r /\
    response_text r = Some text /\ text <> [] /\
    JSON_parse text = Some verdict.
Proof.
  rewrite outcome_validateClothingSafety.
  destruct (parseBase64 c) as [img |]; [| discriminate].
  destruct (generateContent w (safety_request img)) as [| r] eqn:Hr;
    [discriminate |].
  destruct (response_text r) as [text |] eqn:Ht; simpl.
  - destruct (nonempty text) eqn:Hne.
    + destruct (JSON_parse text) as [v |] eqn:Hp; [| discriminate].
      intros E _; injection E as <-.
      exists img, r, text. repeat split; auto.
      intros ->; discriminate.
    + intros E Hpass; injection E as <-. discriminate Hpass.
  - intros E Hpass; injection E as <-. discriminate Hpass.
Qed.

Lemma gate_passes_only_on_backend_say_so_witness :
  exists img r text,
    parseBase64 (base64 Sample.garment) = Normal img /\
    generateContent (Sample.world Sample.all_fine) (safety_request img)
      = Responds r /\
    response_text r = Some text /\ text <> [] /\
    JSON_parse text = Some (JObj [(str "valid", JBool true)]).
Proof.
  apply (gate_passes_only_on_backend_say_so (base64 Sample.garment)
           (Sample.world Sample.all_fine)).
  - vm_compute. reflexivity.
  - reflexivity.
Defined.

(** ** What the operations return *)

Lemma review_not_empty u c w s :
  outcome_of (generateStylistReview u c) w = Normal s -> s <> [].
Proof.
  rewrite outcome_generateStylistReview.
  destruct (parseBase64 u); [| discriminate].
  destruct (parseBase64 c); [| discriminate].
  destruct (generateContent w _) as [| r].
  - intros E; injection E as <-. discriminate.
  - destruct (response_text r) as [t |]; simpl.
    + destruct (nonempty t) eqn:Hne; intros E; injection E as <-;
        [intros -> |]; discriminate.
    + intros E; injection E as <-. discriminate.
Qed.

(** X6. What [generateStylistReview] returns is never the empty string, and
    it is one of three things: the text of the backend's answer when that
    text is not empty, the default sentence when the answer has no text or
    an empty one, and the fallback sentence when the request is rejected. *)
Theorem review_is_never_empty (u c : jsstring) (w : World) (s : jsstring) :
  outcome_of (generateStylistReview u c) w = Normal s ->
  s <> [] /\
  exists ui ci,
    parseBase64 u = Normal ui /\ parseBase64 c = Normal ci /\
    match generateContent w (review_request ui ci) with
    | Rejects _ => s = review_fallback
    | Responds r =>
        match response_text r with
        | Some (x :: t) => s = x :: t
        | Some [] | None => s = review_default
        end
    end.
Proof.
  intros H. split; [exact (review_not_empty u c w s H) |].
  rewrite outcome_generateStylistReview in H.
  destruct (parseBase64 u) as [ui |]; [| discriminate].
  destruct (parseBase64 c) as [ci |]; [| discriminate].
  exists ui, ci. split; [reflexivity |]. split; [reflexivity |].
  destruct (generateContent w _) as [| r].
  - now injection H as <-.
  - destruct (response_text r) as [[| x t] |]; simpl in H;
      now injection H as <-.
Qed.

Lemma review_is_never_empty_witness :
  review_default <> [] /\
  exists ui ci,
    parseBase64 (base64 Sample.person) = Normal ui /\
    parseBase64 (base64 Sample.garment) = Normal ci /\
    match generateContent (Sample.world Scenario.wordless)
            (review_request ui ci) with
    | Rejects _ => review_default = review_fallback
    | Responds r =>
        match response_text r with
        | Some (x :: t) => review_default = x :: t
        | Some [] | None => review_default = review_default
        end
    end.
Proof.
  apply (review_is_never_empty (base64 Sample.person) (base64 Sample.garment)
           (Sample.world Scenario.wordless)).
  vm_compute. reflexivity.
Defined.

Lemma first_image_of_blobs (ps : list Part) (b : Blob) (others : list Blob) :
  inline_blobs ps = b :: others -> first_image ps = Some (png_url b).
Proof.
  unfold first_image, inline_blobs.
  induction ps as [| p ps IH]; [discriminate |].
  simpl. destruct (part_inlineData p) as [b' |] eqn:Hp.
  - intros E; injection E as <- _. now rewrite Hp.
  - exact IH.
Qed.

(** X7. [generateProductImage] returns the first inline image of the response,
    labelled [image/png], whatever follows it. *)
Theorem generateProductImage_returns_first_image
    (rec : Recommendation) (w : World) (r : Response) (b : Blob)
    (others : list Blob) :
  generateContent w (product_request rec) = Responds r ->
  inline_blobs (response_parts r) = b :: others ->
  outcome_of (generateProductImage rec) w =
  Normal (str "data:image/png;base64," ++ text_or_undefined (blob_data b)).
Proof.
  intros Hr Hb. rewrite outcome_generateProductImage, Hr.
  now rewrite (first_image_of_blobs _ b others Hb).
Qed.

Lemma generateProductImage_returns_first_image_witness :
  outcome_of (generateProductImage Sample.scarf)
    (Sample.world Scenario.two_products)
  = Normal (str "data:image/png;base64,ONE").
Proof.
  exact (generateProductImage_returns_first_image Sample.scarf
           (Sample.world Scenario.two_products)
           Scenario.two_products_response
           {| blob_mimeType := Some (str "image/jpeg");
              blob_data := Some (str "ONE") |}
           [{| blob_mimeType := Some (str "image/png");
               blob_data := Some (str "TWO") |}]
           eq_refl eq_refl).
Defined.

(** X8. When the backend has answered, the message of the error that
    [generateTryOn] throws is bounded: the backend's words are cut to a
    hundred code units. *)
Theorem tryOn_refusal_is_bounded
    (u c i : jsstring) (p : Pose) (w : World) (req : Request) (r : Response)
    (e : JsError) :
  In (Backend req (Responds r)) (trace (generateTryOn u c i p) w) ->
  outcome_of (generateTryOn u c i p) w = Throw e ->
  List.length (message e) <= 154.
Proof.
  intros Hin.
  apply generateTryOn_backend in Hin as (ui & ci & Hu & Hc & -> & Hr).
  rewrite outcome_generateTryOn, Hu, Hc, Hr. cbv zeta.
  destruct (truthy_text _); [discriminate |].
  intros E; injection E as <-. simpl message.
  unfold missing_image_message.
  destruct (find_text (response_parts r)) as [t |];
    [destruct (Nat.ltb _ _) |]; try (vm_compute; lia).
  unfold refusal_message, substring0.
  rewrite !length_app, length_firstn.
  change (List.length (str "The model could not generate the image. Message: "))
    with 49.
  simpl List.length. lia.
Qed.

Lemma tryOn_refusal_is_bounded_witness :
  List.length (refusal_message (str "I can't do that")) <= 154.
Proof.
  apply (tryOn_refusal_is_bounded
           (base64 Sample.person) (base64 Sample.garment) [] original
           (Sample.world Sample.refused)
           (tryOn_request Sample.person_data Sample.garment_data [] original)
           Scenario.refusal_response
           (new_Error (refusal_message (str "I can't do that")))).
  - vm_compute. right. left. reflexivity.
  - vm_compute. reflexivity.
Defined.

(** ** How a generation cycle ends *)

Lemma gate_trace_adapter c w :
  forallb is_adapter_event (trace (validateClothingSafety c) w) = true.
Proof.
  destruct (trace_validateClothingSafety_quiet c w) as (t & -> & Ht).
  simpl. now apply quiet_is_adapter.
Qed.

Lemma run_failing (st : AppState) (t : list Event) (err : JsError) :
  forallb is_adapter_event t = true ->
  fold_left apply_event (entering ++ t ++ failing err) st =
  with_outputs st ERROR None
    (Some (message_or err (str "Failed to process the virtual try-on."))).
Proof.
  intros Ht. rewrite !fold_left_app. rewrite (adapter_events_frame t _ Ht).
  reflexivity.
Qed.

Lemma run_succeeding (st : AppState) (t : list Event) r recs review :
  forallb is_adapter_event t = true ->
  fold_left apply_event (entering ++ t ++ succeeding r recs review) st =
  with_outputs st SUCCESS
    (Some {| imageUrl := Some (tryOn_imageUrl r);
             recommendations := Some recs;
             feedback := Some review |})
    None.
Proof.
  intros Ht. rewrite !fold_left_app. rewrite (adapter_events_frame t _ Ht).
  reflexivity.
Qed.

Lemma fan_out_Normal st w user clothing r recs review :
  outcome_of (fan_out st user clothing) w = Normal (r, recs, review) ->
  outcome_of (generateTryOn (base64 user) (base64 clothing) (instructions st)
                (selected_pose st)) w = Normal r /\
  outcome_of (generateStyleRecommendations (base64 clothing)) w = Normal recs
  /\
  outcome_of (generateStylistReview (base64 user) (base64 clothing)) w
  = Normal review.
Proof.
  unfold fan_out. rewrite outcome_Promise_all3.
  destruct (outcome_of (generateTryOn _ _ _ _) w),
           (outcome_of (generateStyleRecommendations _) w),
           (outcome_of (generateStylistReview _ _) w);
    cbv zeta; try (destruct (first_rejection _ _); discriminate).
  intros E; injection E as -> -> ->. repeat split; reflexivity.
Qed.

(** The state a cycle ends in, by the gate's answer and the fan-out's. *)
Lemma handleTryOn_end st w user clothing :
  userImage st = Some user ->
  clothingImage st = Some clothing ->
  (exists err,
     run_handler (handleTryOn st) w st =
     with_outputs st ERROR None
       (Some (message_or err (str "Failed to process the virtual try-on."))))
  \/
  (exists verdict r recs review,
     outcome_of (validateClothingSafety (base64 clothing)) w = Normal verdict
     /\ gate_passes verdict = true /\
     outcome_of (fan_out st user clothing) w = Normal (r, recs, review) /\
     run_handler (handleTryOn st) w st =
     with_outputs st SUCCESS
       (Some {| imageUrl := Some (tryOn_imageUrl r);
                recommendations := Some recs;
                feedback := Some review |})
       None).
Proof.
  intros Hu Hc. unfold run_handler.
  destruct (outcome_of (validateClothingSafety (base64 clothing)) w)
    as [verdict | e] eqn:Hv.
  - destruct (gate_passes verdict) eqn:Hpass.
    + rewrite (handleTryOn_passed st w user clothing verdict Hu Hc Hv Hpass).
      destruct (outcome_of (fan_out st user clothing) w)
        as [[[r recs] review] | err] eqn:Hf.
      * right. exists verdict, r, recs, review. repeat split; auto.
        rewrite app_assoc with (l := trace (validateClothingSafety _) w).
        apply run_succeeding. rewrite forallb_app.
        now rewrite gate_trace_adapter, fan_out_adapter.
      * left. exists err.
        rewrite app_assoc with (l := trace (validateClothingSafety _) w).
        apply run_failing. rewrite forallb_app.
        now rewrite gate_trace_adapter, fan_out_adapter.
    + destruct (handleTryOn_blocked st w user clothing Hu Hc) as [err ->].
      { rewrite Hv. exact Hpass. }
      left. exists err. apply run_failing, gate_trace_adapter.
  - destruct (handleTryOn_blocked st w user clothing Hu Hc) as [err ->].
    { rewrite Hv. exact I. }
    left. exists err. apply run_failing, gate_trace_adapter.
Qed.

Lemma message_or_not_empty (e : JsError) (fallback : jsstring) :
  fallback <> [] -> message_or e fallback <> [].
Proof.
  unfold message_or. destruct (message e) as [| x m] eqn:Hm; simpl.
  - auto.
  - discriminate.
Qed.

Lemma tryOn_url_not_empty u c i p w r :
  outcome_of (generateTryOn u c i p) w = Normal r -> tryOn_imageUrl r <> [].
Proof.
  rewrite outcome_generateTryOn.
  destruct (parseBase64 u); [| discriminate].
  destruct (parseBase64 c); [| discriminate].
  destruct (generateContent w _) as [| resp]; [discriminate |].
  cbv zeta.
  destruct (fold_left scan_image (response_parts resp) None) as [url |];
    simpl; [| discriminate].
  destruct url; simpl; [discriminate |].
  intros E; injection E as <-. discriminate.
Qed.

(** X9. A cycle that starts with both images ends in Success or in Error, never
    in between: a Success carries an image that is not empty, the
    recommendations and a stylist's note that is not empty, and no error; an
    Error carries a message that is not empty, and no result. *)
Theorem cycle_ends_in_success_or_error
    (st : AppState) (w : World) (user clothing : ImageFile) :
  userImage st = Some user ->
  clothingImage st = Some clothing ->
  let st' := run_handler (handleTryOn st) w st in
  (status st' = SUCCESS /\ error st' = None /\
   exists url recs review,
     url <> [] /\ review <> [] /\
     result st' = Some {| imageUrl := Some url;
                          recommendations := Some recs;
                          feedback := Some review |})
  \/
  (status st' = ERROR /\ result st' = None /\
   exists msg, msg <> [] /\ error st' = Some msg).
Proof.
  intros Hu Hc st'. subst st'.
  destruct (handleTryOn_end st w user clothing Hu Hc)
    as [[err ->] | (verdict & r & recs & review & _ & _ & Hf & ->)].
  - right. repeat split. eexists. split; [| reflexivity].
    apply message_or_not_empty. discriminate.
  - left. repeat split.
    apply fan_out_Normal in Hf as (Hr & _ & Hrev).
    exists (tryOn_imageUrl r), recs, review. repeat split.
    + eapply tryOn_url_not_empty; eassumption.
    + eapply review_not_empty; eassumption.
Qed.

Lemma cycle_ends_in_success_or_error_witness :
  status (run_handler (handleTryOn ready) (world refused) ready) = ERROR /\
  status (run_handler (handleTryOn ready) (world all_fine) ready) = SUCCESS.
Proof.
  split.
  - destruct (cycle_ends_in_success_or_error ready (world refused)
                person garment eq_refl eq_refl) as [[H _] | [H _]].
    + vm_compute in H. discriminate H.
    + exact H.
  - destruct (cycle_ends_in_success_or_error ready (world all_fine)
                person garment eq_refl eq_refl) as [[H _] | [H _]].
    + exact H.
    + vm_compute in H. discriminate H.
Defined.

(** X10. A cycle writes [status], [result] and [error] and nothing else:
    the images, the model, the instructions, the angle and its switch are
    after the cycle what they were before, whatever the backend did. When
    an image is missing the handler does nothing at all: it performs no
    event and the state, outputs included, is what it was. *)
Theorem cycle_keeps_the_inputs (st : AppState) (w : World) :
  (exists s r e,
     run_handler (handleTryOn st) w st = with_outputs st s r e) /\
  (userImage st = None \/ clothingImage st = None ->
   trace (handleTryOn st) w = [] /\
   run_handler (handleTryOn st) w st = st).
Proof.
  assert (Hidle : userImage st = None \/ clothingImage st = None ->
                  trace (handleTryOn st) w = []).
  { intros H. unfold handleTryOn.
    destruct (userImage st) as [user |];
      [destruct (clothingImage st) as [clothing |] |]; async;
      try reflexivity.
    destruct H; discriminate. }
  split.
  - destruct (userImage st) as [user |] eqn:Hu;
      [destruct (clothingImage st) as [clothing |] eqn:Hc |].
    + destruct (handleTryOn_end st w user clothing Hu Hc)
        as [[err ->] | (verdict & r & recs & review & _ & _ & _ & ->)];
        eauto.
    + exists (status st), (result st), (error st).
      unfold run_handler. rewrite Hidle by auto.
      destruct st; simpl in *; subst; reflexivity.
    + exists (status st), (result st), (error st).
      unfold run_handler. rewrite Hidle by auto.
      destruct st; simpl in *; subst; reflexivity.
  - intros H. split; [now apply Hidle |].
    unfold run_handler. now rewrite Hidle.
Qed.

Lemma cycle_keeps_the_inputs_witness :
  trace (handleTryOn Scenario.person_only) (world all_fine) = [] /\
  run_handler (handleTryOn Scenario.person_only) (world all_fine)
    Scenario.person_only = Scenario.person_only.
Proof.
  apply (cycle_keeps_the_inputs Scenario.person_only (world all_fine)).
  right. reflexivity.
Defined.

(** ** What a cycle asks of the adapter *)

Lemma invocations_app (a b : list Event) :
  invocations (a ++ b) = invocations a ++ invocations b.
Proof. apply flat_map_app. Qed.

Lemma invocations_quiet (t : list Event) :
  forallb is_quiet t = true -> invocations t = [].
Proof.
  induction t as [| e t IH]; simpl; [reflexivity |].
  intros H; apply andb_true_iff in H as [He Ht].
  destruct e; try discriminate; simpl; auto.
Qed.

Lemma fan_out_invocations st w user clothing :
  invocations (trace (fan_out st user clothing) w) =
  [generateTryOn_call (base64 user) (base64 clothing) (instructions st)
     (selected_pose st);
   generateStyleRecommendations_call (base64 clothing);
   generateStylistReview_call (base64 user) (base64 clothing)].
Proof.
  unfold fan_out. rewrite trace_Promise_all3.
  destruct (trace_generateTryOn (base64 user) (base64 clothing)
              (instructions st) (selected_pose st) w) as (t1 & -> & H1).
  destruct (trace_generateStyleRecommendations (base64 clothing) w)
    as (t2 & -> & H2).
  destruct (trace_generateStylistReview (base64 user) (base64 clothing) w)
    as (t3 & -> & H3).
  rewrite !invocations_app. simpl.
  now rewrite (invocations_quiet t1 H1), (invocations_quiet t2 H2),
    (invocations_quiet t3 H3).
Qed.

Lemma gate_invocations c w :
  invocations (trace (validateClothingSafety c) w) =
  [validateClothingSafety_call c].
Proof.
  destruct (trace_validateClothingSafety_quiet c w) as (t & -> & Ht).
  simpl. now rewrite (invocations_quiet t Ht).
Qed.

Lemma fan_out_requests st w user clothing :
  List.length (backend_requests (trace (fan_out st user clothing) w)) <= 3.
Proof.
  unfold fan_out. rewrite trace_Promise_all3, !backend_requests_app,
    !length_app.
  pose proof (tryOn_requests (base64 user) (base64 clothing) (instructions st)
                (selected_pose st) w).
  pose proof (recommendations_requests (base64 clothing) w).
  pose proof (review_requests (base64 user) (base64 clothing) w).
  lia.
Qed.

Lemma handleTryOn_invocations_passed st w user clothing verdict :
  userImage st = Some user ->
  clothingImage st = Some clothing ->
  outcome_of (validateClothingSafety (base64 clothing)) w = Normal verdict ->
  gate_passes verdict = true ->
  invocations (trace (handleTryOn st) w) =
  [validateClothingSafety_call (base64 clothing);
   generateTryOn_call (base64 user) (base64 clothing) (instructions st)
     (selected_pose st);
   generateStyleRecommendations_call (base64 clothing);
   generateStylistReview_call (base64 user) (base64 clothing)].
Proof.
  intros Hu Hc Hv Hpass.
  rewrite (handleTryOn_passed st w user clothing verdict Hu Hc Hv Hpass).
  rewrite !invocations_app, gate_invocations, fan_out_invocations.
  destruct (outcome_of (fan_out st user clothing) w) as [[[r recs] review] |];
    reflexivity.
Qed.

(** X11. Once the gate has let the garment through, the three generation
    operations are all started, in the order of the array, each once and with
    the images, instructions and pose of the render: also when one of them
    fails at once. The whole cycle has then called the adapter four times. *)
Theorem passed_gate_starts_all_three
    (st : AppState) (w : World) (user clothing : ImageFile) (verdict : json) :
  userImage st = Some user ->
  clothingImage st = Some clothing ->
  outcome_of (validateClothingSafety (base64 clothing)) w = Normal verdict ->
  gate_passes verdict = true ->
  invocations (trace (handleTryOn st) w) =
  [validateClothingSafety_call (base64 clothing);
   generateTryOn_call (base64 user) (base64 clothing) (instructions st)
     (selected_pose st);
   generateStyleRecommendations_call (base64 clothing);
   generateStylistReview_call (base64 user) (base64 clothing)].
Proof. apply handleTryOn_invocations_passed. Qed.

Lemma passed_gate_starts_all_three_witness :
  invocations (trace (handleTryOn ready) (world refused)) =
  [validateClothingSafety_call (base64 garment);
   generateTryOn_call (base64 person) (base64 garment) [] original;
   generateStyleRecommendations_call (base64 garment);
   generateStylistReview_call (base64 person) (base64 garment)].
Proof.
  apply (passed_gate_starts_all_three ready (world refused) person garment
           (Json.JObj [(str "valid", Json.JBool true)])).
  - reflexivity.
  - reflexivity.
  - vm_compute. reflexivity.
  - reflexivity.
Defined.

(** X12. A cycle sends at most four requests to the backend, whatever the
    answers: nothing is asked twice. *)
Theorem cycle_sends_at_most_four_requests (st : AppState) (w : World) :
  List.length (backend_requests (trace (handleTryOn st) w)) <= 4.
Proof.
  destruct (userImage st) as [user |] eqn:Hu;
    [destruct (clothingImage st) as [clothing |] eqn:Hc |].
  - pose proof (gate_requests (base64 clothing) w) as Hg.
    pose proof (fan_out_requests st w user clothing) as Hf.
    destruct (outcome_of (validateClothingSafety (base64 clothing)) w)
      as [verdict | e] eqn:Hv.
    + destruct (gate_passes verdict) eqn:Hpass.
      * rewrite (handleTryOn_passed st w user clothing verdict Hu Hc Hv Hpass).
        rewrite !backend_requests_app, !length_app.
        destruct (outcome_of (fan_out st user clothing) w)
          as [[[r recs] review] |]; simpl; lia.
      * destruct (handleTryOn_blocked st w user clothing Hu Hc) as [err ->].
        { rewrite Hv. exact Hpass. }
        rewrite !backend_requests_app, !length_app. simpl. lia.
    + destruct (handleTryOn_blocked st w user clothing Hu Hc) as [err ->].
      { rewrite Hv. exact I. }
      rewrite !backend_requests_app, !length_app. simpl. lia.
  - unfold handleTryOn. rewrite Hu, Hc. async. simpl. lia.
  - unfold handleTryOn. rewrite Hu. async. simpl. lia.
Qed.

(** ** The states the component passes through *)

(** An update that leaves [status], [result] and [error] alone and keeps the
    angle in range keeps the state settled. *)
Lemma settled_same_outputs (st st' : AppState) :
  settled st ->
  status st' = status st -> result st' = result st -> error st' = error st ->
  rotation_ok st' ->
  settled st'.
Proof.
  intros (Hp & Hs & He & _) Es Er Ee Hrot. unfold settled.
  rewrite Es, Er, Ee. auto.
Qed.

Lemma settled_idle (st : AppState) :
  status st = IDLE -> rotation_ok st -> settled st.
Proof.
  intros Hs Hrot. unfold settled. rewrite Hs.
  repeat split; try discriminate; apply Hrot.
Qed.

Lemma isFormValid_true (st : AppState) :
  isFormValid st = true ->
  exists user clothing,
    userImage st = Some user /\ clothingImage st = Some clothing.
Proof.
  unfold isFormValid.
  destruct (userImage st), (clothingImage st); try discriminate; eauto.
Qed.

Lemma status_eqb_eq (a b : AppStatus) : status_eqb a b = true <-> a = b.
Proof. destruct a, b; simpl; split; congruence. Qed.

Lemma handleTryOn_settled st w user clothing :
  userImage st = Some user ->
  clothingImage st = Some clothing ->
  rotation_ok st ->
  settled (run_handler (handleTryOn st) w st).
Proof.
  intros Hu Hc Hrot.
  destruct (handleTryOn_end st w user clothing Hu Hc)
    as [[err ->] | (verdict & r & recs & review & _ & _ & Hf & ->)];
    unfold settled; simpl.
  - split; [discriminate |]. split; [discriminate |].
    split; [| exact Hrot].
    intros _. split; [reflexivity |]. eexists. split; [reflexivity |].
    apply message_or_not_empty. discriminate.
  - split; [discriminate |]. split; [| split; [discriminate | exact Hrot]].
    intros _. split; [reflexivity |].
    apply fan_out_Normal in Hf as (Hr & _ & Hrev).
    exists (tryOn_imageUrl r), recs, review. repeat split.
    + eapply tryOn_url_not_empty; eassumption.
    + eapply review_not_empty; eassumption.
Qed.

Lemma handleApplyRecommendation_idle rec w st :
  status (run_handler (handleApplyRecommendation rec) w st) = IDLE /\
  rotation (run_handler (handleApplyRecommendation rec) w st) = rotation st.
Proof.
  unfold run_handler. rewrite trace_handleApplyRecommendation.
  simpl fold_left. rewrite fold_left_app, generateProductImage_frame.
  destruct (outcome_of (generateProductImage rec) w); simpl; auto.
Qed.

(** One event keeps the state settled. *)
Lemma step_settled (st : AppState) (e : UiEvent) (w : World) :
  settled st -> settled (step st e w).
Proof.
  intros Hst. pose proof Hst as (Hp & Hs & He & Hrot).
  unfold step, run_handler.
  destruct e; simpl handler_of.
  - async. simpl. now apply (settled_same_outputs st).
  - destruct (truthy_text (clothingModelUrl st)); [async; exact Hst |].
    unfold handleClothingUpload.
    destruct image as [f |]; [destruct (is_model_name _) |];
      async; simpl; now apply (settled_same_outputs st).
  - destruct (truthy_text (clothingModelUrl st)); [| async; exact Hst].
    unfold handle3DSnapshot. async. simpl.
    now apply (settled_same_outputs st).
  - destruct (truthy_text (clothingModelUrl st)); [| async; exact Hst].
    unfold clearClothing. async. simpl. now apply (settled_same_outputs st).
  - async. simpl. now apply (settled_same_outputs st).
  - destruct (useCustomRotation st); [| async; exact Hst].
    async. simpl. apply (settled_same_outputs st); auto.
    apply range_value_bounds.
  - async. simpl. now apply (settled_same_outputs st).
  - destruct (isFormValid st) eqn:Hv; simpl; [| async; exact Hst].
    destruct (status_eqb (status st) PROCESSING); [async; exact Hst |].
    apply isFormValid_true in Hv as (user & clothing & Hu & Hc).
    now apply (handleTryOn_settled st w user clothing).
  - destruct (_ || _); [| async; exact Hst].
    unfold handleReset. async. simpl. now apply settled_idle.
  - destruct (status_eqb (status st) SUCCESS); [| async; exact Hst].
    destruct (handleApplyRecommendation_idle rec w st) as [Hi Hr].
    apply settled_idle; [exact Hi |].
    unfold rotation_ok, run_handler in *. now rewrite Hr.
Qed.

Lemma run_events_snoc (events : list (UiEvent * World)) e w :
  run_events (events ++ [(e, w)]) = step (run_events events) e w.
Proof. unfold run_events. now rewrite fold_left_app. Qed.

Lemma run_events_settled (events : list (UiEvent * World)) :
  settled (run_events events).
Proof.
  induction events as [| [e w] events IH] using rev_ind.
  - apply settled_idle; [reflexivity |]. unfold rotation_ok. simpl. lia.
  - rewrite run_events_snoc. now apply step_settled.
Qed.

(** X13. With every handler run to its end before the next event, each state the
    component reaches from its first render is settled: no cycle is left
    running; Success comes with an image and a note, neither empty, with
    recommendations and with no error; Error comes with a message that is
    not empty and with no result; and the angle is between 0 and 360. *)
Theorem every_state_reached_is_settled (events : list (UiEvent * World)) :
  settled (run_events events).
Proof. apply run_events_settled. Qed.

(** ** Generate, then start over *)

(** X14. Asking for the look and then pressing the button of the result panel
    that starts over gives the state before the look with the outputs
    cleared, whether the cycle succeeded or failed and whatever the backend
    answered. *)
Theorem generate_then_reset
    (st : AppState) (w w' : World) :
  isFormValid st = true ->
  status st <> PROCESSING ->
  step (step st GenerateClick w) ResetClick w' = with_outputs st IDLE None None.
Proof.
  intros Hv Hp. unfold step at 2. simpl handler_of. rewrite Hv.
  assert (Hnp : status_eqb (status st) PROCESSING = false).
  { destruct (status st); try reflexivity. now elim Hp. }
  rewrite Hnp. simpl orb. cbv iota.
  apply isFormValid_true in Hv as (user & clothing & Hu & Hc).
  unfold step.
  destruct (handleTryOn_end st w user clothing Hu Hc)
    as [[err ->] | (verdict & r & recs & review & _ & _ & _ & ->)];
    reflexivity.
Qed.

Lemma generate_then_reset_witness :
  step (step ready GenerateClick (world swimwear)) ResetClick (world all_fine)
  = ready.
Proof.
  exact (generate_then_reset ready (world swimwear) (world all_fine) eq_refl
           ltac:(discriminate)).
Defined.

(** ** Garments that are 3D models *)

Lemma ends_with_iff (p s : jsstring) :
  ends_with p s = true <-> exists stem, s = stem ++ p.
Proof.
  unfold ends_with. split.
  - intros H. apply starts_with_prefix in H.
    exists (rev (skipn (List.length (rev p)) (rev s))).
    rewrite <- (rev_involutive s) at 1. rewrite H at 1.
    now rewrite rev_app_distr, rev_involutive.
  - intros [stem ->]. rewrite rev_app_distr. apply starts_with_app.
Qed.

(** The pattern [/\.(glb|gltf)$/i] by what it matches. *)
Lemma is_model_name_iff (name : jsstring) :
  is_model_name name = true <->
  exists stem ext, name = stem ++ ext /\ model_extension ext.
Proof.
  unfold is_model_name, model_extension. cbv zeta.
  rewrite orb_true_iff, !ends_with_iff. split.
  - intros [[stem H] | [stem H]];
      apply map_eq_app in H as (n1 & n2 & -> & _ & H2); eauto.
  - intros (stem & ext & -> & [H | H]); rewrite map_app, H; eauto.
Qed.

Lemma is_model_name_exact_weaker (name : jsstring) :
  is_model_name_exact name = true -> is_model_name name = true.
Proof.
  unfold is_model_name_exact. rewrite orb_true_iff, !ends_with_iff.
  intros H. apply is_model_name_iff.
  destruct H as [[stem ->] | [stem ->]]; eexists; eexists;
    (split; [reflexivity |]); [left | right]; reflexivity.
Qed.

(** X15. An uploaded garment is shown in the 3D viewer exactly when its name
    ends in [.glb] or [.gltf], in any case of the letters. A model becomes the
    model URL and clears the garment image, which disables the generation until
    a snapshot is captured; any other file becomes the garment image and clears
    the model URL. *)
Theorem clothing_upload_routes_by_extension
    (st : AppState) (w : World) (f : ImageFile) :
  let st' := run_handler (handleClothingUpload (Some f)) w st in
  ((exists stem ext, name (file f) = stem ++ ext /\ model_extension ext) ->
   clothingModelUrl st' = Some (previewUrl f) /\ clothingImage st' = None /\
   isFormValid st' = false) /\
  (~ (exists stem ext, name (file f) = stem ++ ext /\ model_extension ext) ->
   clothingModelUrl st' = None /\ clothingImage st' = Some f).
Proof.
  cbv zeta. unfold run_handler, handleClothingUpload.
  destruct (is_model_name (name (file f))) eqn:Hm.
  - async. simpl. split.
    + intros _. repeat split. unfold isFormValid. simpl.
      now destruct (userImage st).
    + intros Hn. elim Hn. now apply is_model_name_iff.
  - async. simpl. split.
    + intros Hy. apply is_model_name_iff in Hy. congruence.
    + auto.
Qed.

Lemma clothing_upload_routes_by_extension_witness :
  clothingModelUrl
    (run_handler (handleClothingUpload (Some Scenario.jacket_model))
       (world all_fine) Scenario.person_only)
  = Some (previewUrl Scenario.jacket_model) /\
  clothingImage
    (run_handler (handleClothingUpload (Some garment))
       (world all_fine) Scenario.person_only)
  = Some garment.
Proof.
  split.
  - apply (clothing_upload_routes_by_extension Scenario.person_only
             (world all_fine) Scenario.jacket_model).
    exists (str "Jacket"), (str ".GLB"). split; [reflexivity |].
    left. reflexivity.
  - apply (clothing_upload_routes_by_extension Scenario.person_only
             (world all_fine) garment).
    intros H. apply is_model_name_iff in H. discriminate H.
Defined.

(** X16. A dropped file that is no image by its type and that the uploader lets
    through for its name is a file that the component shows in the 3D
    viewer: the uploader's test, without the [i] flag, is the stricter
    one. *)
Theorem dropped_model_reaches_the_viewer
    (accept : jsstring) (f : PickedFile) :
  includes (str "image") accept = true ->
  starts_with (str "image/") (picked_type f) = false ->
  handleDrop accept (Some f) = Some f ->
  is_model_name (picked_name f) = true.
Proof.
  intros Ha Ht. unfold handleDrop. rewrite Ha, Ht. simpl.
  destruct (is_model_name_exact (picked_name f)) eqn:He; simpl;
    [| discriminate].
  intros _. now apply is_model_name_exact_weaker.
Qed.

Lemma dropped_model_reaches_the_viewer_witness :
  is_model_name (str "jacket.gltf") = true.
Proof.
  apply (dropped_model_reaches_the_viewer (str "image/*,.glb,.gltf")
           {| picked_name := str "jacket.gltf";
              picked_type := str "model/gltf+json" |});
    reflexivity.
Defined.

Lemma cycle_starts_with_gate st w user clothing :
  userImage st = Some user ->
  clothingImage st = Some clothing ->
  exists rest,
    invocations (trace (handleTryOn st) w) =
    validateClothingSafety_call (base64 clothing) :: rest.
Proof.
  intros Hu Hc.
  destruct (outcome_of (validateClothingSafety (base64 clothing)) w)
    as [verdict | e] eqn:Hv.
  - destruct (gate_passes verdict) eqn:Hpass.
    + rewrite (handleTryOn_invocations_passed st w user clothing verdict
                 Hu Hc Hv Hpass). eauto.
    + destruct (handleTryOn_blocked st w user clothing Hu Hc) as [err ->].
      { rewrite Hv. exact Hpass. }
      rewrite !invocations_app, gate_invocations. simpl. eauto.
  - destruct (handleTryOn_blocked st w user clothing Hu Hc) as [err ->].
    { rewrite Hv. exact I. }
    rewrite !invocations_app, gate_invocations. simpl. eauto.
Qed.

(** X17. Uploading a model and capturing the view: the model alone leaves the
    generation disabled; the snapshot becomes the garment, under the name
    [snapshot.png], while the model stays in the viewer; and the snapshot is
    what the next cycle hands to the gate. *)
Theorem captured_snapshot_is_the_garment
    (st : AppState) (f : ImageFile) (shot : jsstring) (user : ImageFile)
    (w1 w2 w3 : World) :
  truthy_text (clothingModelUrl st) = false ->
  is_model_name (name (file f)) = true ->
  previewUrl f <> [] ->
  userImage st = Some user ->
  status st <> PROCESSING ->
  let st1 := step st (ClothingImageChange (Some f)) w1 in
  let st2 := step st1 (Capture shot) w2 in
  trace (handler_of st1 GenerateClick) w3 = [] /\
  clothingImage st2 = Some {| file := {| name := str "snapshot.png" |};
                              previewUrl := shot; base64 := shot |} /\
  clothingModelUrl st2 = Some (previewUrl f) /\
  exists rest,
    invocations (trace (handler_of st2 GenerateClick) w3) =
    validateClothingSafety_call shot :: rest.
Proof.
  intros Hfree Hm Hurl Hu Hp. cbv zeta.
  assert (E1 : step st (ClothingImageChange (Some f)) w1 =
               apply_update
                 (apply_update st (setClothingModelUrl (Some (previewUrl f))))
                 (setClothingImage None)).
  { unfold step, run_handler. simpl handler_of. rewrite Hfree.
    unfold handleClothingUpload. rewrite Hm. async. reflexivity. }
  rewrite E1.
  assert (Hne : nonempty (previewUrl f) = true).
  { destruct (previewUrl f); [congruence | reflexivity]. }
  assert (Hnp : status_eqb (status st) PROCESSING = false).
  { destruct (status st); try reflexivity. now elim Hp. }
  match goal with
  | |- context [step ?s1 (Capture shot) w2] =>
      assert (E2 : step s1 (Capture shot) w2 =
                   apply_update s1 (setClothingImage (Some
                     {| file := {| name := str "snapshot.png" |};
                        previewUrl := shot; base64 := shot |})))
  end.
  { unfold step, run_handler. simpl handler_of. rewrite Hne.
    unfold handle3DSnapshot. async. reflexivity. }
  rewrite E2. clear E1 E2.
  split; [| split; [| split]]; try reflexivity.
  - simpl handler_of. unfold isFormValid. simpl.
    destruct (userImage st); reflexivity.
  - simpl handler_of. unfold isFormValid. simpl userImage. rewrite Hu.
    simpl clothingImage. simpl status. rewrite Hnp. simpl negb. simpl orb.
    cbv iota.
    match goal with
    | |- context [handleTryOn ?s] =>
        destruct (cycle_starts_with_gate s w3 user
                    {| file := {| name := str "snapshot.png" |};
                       previewUrl := shot; base64 := shot |})
          as [rest ->]; [reflexivity | reflexivity | eauto]
    end.
Qed.

Lemma captured_snapshot_is_the_garment_witness :
  clothingImage
    (step (step Scenario.person_only
                (ClothingImageChange (Some Scenario.jacket_model))
                (world all_fine))
          (Capture (base64 garment)) (world all_fine))
  = Some {| file := {| name := str "snapshot.png" |};
            previewUrl := base64 garment; base64 := base64 garment |}.
Proof.
  apply (captured_snapshot_is_the_garment Scenario.person_only
           Scenario.jacket_model (base64 garment) person
           (world all_fine) (world all_fine) (world all_fine));
    solve [reflexivity | discriminate].
Defined.

(** ** Garments that are no data URL *)

Lemma handleTryOn_malformed_garment st w user clothing :
  userImage st = Some user ->
  clothingImage st = Some clothing ->
  parseBase64 (base64 clothing) = Throw format_error ->
  trace (handleTryOn st) w =
  entering ++ [Invoke (validateClothingSafety_call (base64 clothing))]
    ++ failing format_error.
Proof.
  intros Hu Hc Hbad. unfold handleTryOn. rewrite Hu, Hc. async.
  rewrite outcome_validateClothingSafety, Hbad. async.
  unfold validateClothingSafety. async. rewrite Hbad. async.
  reflexivity.
Qed.

(** X18. A garment whose content is no data URL fails the cycle at the gate,
    with the message of the format error, before anything is sent to the
    backend. *)
Theorem malformed_garment_fails_the_cycle
    (st : AppState) (w : World) (user clothing : ImageFile) :
  userImage st = Some user ->
  clothingImage st = Some clothing ->
  parseBase64 (base64 clothing) = Throw format_error ->
  run_handler (handleTryOn st) w st =
    with_outputs st ERROR None (Some (str "Invalid base64 string provided."))
  /\ backend_requests (trace (handleTryOn st) w) = []
  /\ invocations (trace (handleTryOn st) w) =
     [validateClothingSafety_call (base64 clothing)].
Proof.
  intros Hu Hc Hbad. unfold run_handler.
  rewrite (handleTryOn_malformed_garment st w user clothing Hu Hc Hbad).
  repeat split.
Qed.

Lemma malformed_garment_fails_the_cycle_witness :
  error (run_handler (handleTryOn Scenario.broken) (world all_fine)
           Scenario.broken)
  = Some (str "Invalid base64 string provided.").
Proof.
  destruct (malformed_garment_fails_the_cycle Scenario.broken
              (world all_fine) person Scenario.broken_garment
              eq_refl eq_refl eq_refl) as [-> _].
  reflexivity.
Defined.

(** ** A recommendation, applied and tried on *)

Lemma generate_runs_cycle (st : AppState) :
  isFormValid st = true -> status st <> PROCESSING ->
  handler_of st GenerateClick = handleTryOn st.
Proof.
  intros Hv Hp. simpl. rewrite Hv.
  destruct (status st); try reflexivity. now elim Hp.
Qed.

Lemma step_recommendation_applied st rec w url :
  status st = SUCCESS ->
  outcome_of (generateProductImage rec) w = Normal url ->
  step st (RecommendationClick rec) w =
  {| userImage := userImage st;
     clothingImage := Some {| file := {| name := itemName rec ++ str ".png" |};
                              previewUrl := url; base64 := url |};
     clothingModelUrl := None;
     instructions := str "Trying on " ++ colorHex rec ++ str " " ++ itemName rec;
     rotation := rotation st; useCustomRotation := useCustomRotation st;
     status := IDLE; result := None; error := error st |}.
Proof.
  intros Hs Hurl. unfold step, run_handler. simpl handler_of. rewrite Hs.
  simpl status_eqb. cbv iota.
  rewrite trace_handleApplyRecommendation, Hurl.
  simpl fold_left. rewrite fold_left_app, generateProductImage_frame.
  reflexivity.
Qed.

Lemma step_recommendation_failed st rec w e :
  status st = SUCCESS ->
  outcome_of (generateProductImage rec) w = Throw e ->
  step st (RecommendationClick rec) w =
  with_outputs st IDLE (result st) (Some visualize_error).
Proof.
  intros Hs He. unfold step, run_handler. simpl handler_of. rewrite Hs.
  simpl status_eqb. cbv iota.
  rewrite trace_handleApplyRecommendation, He.
  simpl fold_left. rewrite fold_left_app, generateProductImage_frame.
  reflexivity.
Qed.

(** X19. After a recommendation has been applied, asking for the look runs a
    cycle on the synthesized image: the gate judges it and, when it lets it
    through, the three generation operations receive it together with the
    person's image, the seeded instructions and the pose selected before. *)
Theorem applied_recommendation_is_tried_on
    (st : AppState) (rec : Recommendation) (w w' : World)
    (user : ImageFile) (url : jsstring) (verdict : json) :
  status st = SUCCESS ->
  userImage st = Some user ->
  outcome_of (generateProductImage rec) w = Normal url ->
  outcome_of (validateClothingSafety url) w' = Normal verdict ->
  gate_passes verdict = true ->
  invocations
    (trace (handler_of (step st (RecommendationClick rec) w) GenerateClick)
       w') =
  [validateClothingSafety_call url;
   generateTryOn_call (base64 user) url
     (str "Trying on " ++ colorHex rec ++ str " " ++ itemName rec)
     (selected_pose st);
   generateStyleRecommendations_call url;
   generateStylistReview_call (base64 user) url].
Proof.
  intros Hs Hu Hurl Hv Hpass.
  rewrite (step_recommendation_applied st rec w url Hs Hurl).
  rewrite generate_runs_cycle.
  - match goal with
    | |- context [handleTryOn ?s] =>
        rewrite (handleTryOn_invocations_passed s w' user
                   {| file := {| name := itemName rec ++ str ".png" |};
                      previewUrl := url; base64 := url |} verdict
                   Hu eq_refl Hv Hpass)
    end.
    reflexivity.
  - unfold isFormValid. simpl. now rewrite Hu.
  - discriminate.
Qed.

Lemma applied_recommendation_is_tried_on_witness :
  invocations
    (trace (handler_of (step Scenario.shown (RecommendationClick scarf)
                          (world all_fine)) GenerateClick)
       (world all_fine)) =
  [validateClothingSafety_call (str "data:image/png;base64,DDDD");
   generateTryOn_call (base64 person) (str "data:image/png;base64,DDDD")
     (str "Trying on #AA3311 Silk Scarf") original;
   generateStyleRecommendations_call (str "data:image/png;base64,DDDD");
   generateStylistReview_call (base64 person)
     (str "data:image/png;base64,DDDD")].
Proof.
  apply (applied_recommendation_is_tried_on Scenario.shown scarf
           (world all_fine) (world all_fine) person
           (str "data:image/png;base64,DDDD")
           (Json.JObj [(str "valid", Json.JBool true)]));
    vm_compute; reflexivity.
Defined.

Lemma parseBase64_without_payload :
  parseBase64 (str "data:image/png;base64,") = Throw format_error.
Proof. vm_compute. reflexivity. Qed.

(** X20. An inline image without bytes in the answer to the product request is
    taken for the product image: the recommendation is applied, the garment
    is a data URL without payload, and the next cycle fails on it with the
    message of the format error and without a request to the backend. *)
Theorem hollow_product_image_fails_the_next_cycle
    (st : AppState) (rec : Recommendation) (w w' : World) (user : ImageFile)
    (r : Response) (b : Blob) (others : list Blob) :
  status st = SUCCESS ->
  userImage st = Some user ->
  generateContent w (product_request rec) = Responds r ->
  inline_blobs (response_parts r) = b :: others ->
  blob_data b = Some [] ->
  let st1 := step st (RecommendationClick rec) w in
  let st2 := step st1 GenerateClick w' in
  option_map base64 (clothingImage st1) = Some (str "data:image/png;base64,")
  /\ isFormValid st1 = true
  /\ status st2 = ERROR
  /\ error st2 = Some (str "Invalid base64 string provided.")
  /\ backend_requests (trace (handler_of st1 GenerateClick) w') = [].
Proof.
  intros Hs Hu Hr Hb Hdata. cbv zeta.
  assert (Hurl : outcome_of (generateProductImage rec) w =
                 Normal (str "data:image/png;base64,")).
  { rewrite outcome_generateProductImage, Hr.
    rewrite (first_image_of_blobs _ b others Hb).
    unfold png_url. now rewrite Hdata. }
  rewrite (step_recommendation_applied st rec w _ Hs Hurl).
  match goal with |- context [step ?s GenerateClick w'] => set (st1 := s) end.
  assert (Hrun : handler_of st1 GenerateClick = handleTryOn st1).
  { apply generate_runs_cycle; [| discriminate].
    unfold isFormValid. simpl. now rewrite Hu. }
  pose proof (handleTryOn_malformed_garment st1 w' user
                {| file := {| name := itemName rec ++ str ".png" |};
                   previewUrl := str "data:image/png;base64,";
                   base64 := str "data:image/png;base64," |}
                Hu eq_refl parseBase64_without_payload) as Ht.
  unfold step, run_handler. rewrite Hrun, Ht.
  repeat split. unfold isFormValid. simpl. now rewrite Hu.
Qed.

Lemma hollow_product_image_fails_the_next_cycle_witness :
  status (step (step Scenario.shown (RecommendationClick scarf)
                  (world Scenario.hollow_product))
            GenerateClick (world all_fine)) = ERROR.
Proof.
  apply (hollow_product_image_fails_the_next_cycle Scenario.shown scarf
           (world Scenario.hollow_product) (world all_fine) person
           Scenario.hollow_response
           {| blob_mimeType := Some (str "image/png");
              blob_data := Some [] |} []);
    reflexivity.
Defined.

(** ** What the result panel shows *)



(** X22. A click on a recommendation always brings the idle panel back. When the
    synthesis fails, the message is stored and the result is kept, and the
    panel shows neither. *)
Theorem failed_recommendation_is_not_shown
    (st : AppState) (rec : Recommendation) (w : World) (e : JsError) :
  status st = SUCCESS ->
  outcome_of (generateProductImage rec) w = Throw e ->
  let st' := step st (RecommendationClick rec) w in
  panel_of st' = IdlePanel /\
  error st' = Some (str "Could not visualize item. Please try again.") /\
  result st' = result st.
Proof.
  intros Hs He. cbv zeta.
  rewrite (step_recommendation_failed st rec w e Hs He).
  repeat split.
Qed.

Lemma failed_recommendation_is_not_shown_witness :
  panel_of (step Scenario.shown (RecommendationClick scarf)
              (world product_refused)) = IdlePanel.
Proof.
  apply (failed_recommendation_is_not_shown Scenario.shown scarf
           (world product_refused) visualization_failed);
    vm_compute; reflexivity.
Defined.

(** ** A person's image that is no data URL *)

Lemma gate_requests_wellformed c img w :
  parseBase64 c = Normal img ->
  backend_requests (trace (validateClothingSafety c) w) = [safety_request img].
Proof.
  intros Hc. unfold validateClothingSafety, JSON_parse_or_throw.
  async. rewrite Hc. run_adapter; reflexivity.
Qed.

Lemma recommendations_requests_wellformed c img w :
  parseBase64 c = Normal img ->
  backend_requests (trace (generateStyleRecommendations c) w) =
  [recommendations_request img].
Proof.
  intros Hc. unfold generateStyleRecommendations, JSON_parse_or_throw.
  async. rewrite Hc. run_adapter; reflexivity.
Qed.

(** X23. The garment is judged before the person's image is looked at. A
    person's image that is no data URL fails the cycle only after the gate has
    let the garment through, with the message of the format error; by then the
    gate's request and the request for recommendations have been sent, and no
    other. *)
Theorem malformed_person_fails_after_the_gate
    (st : AppState) (w : World) (user clothing : ImageFile)
    (garment : InlineData) (verdict : json) :
  userImage st = Some user ->
  clothingImage st = Some clothing ->
  parseBase64 (base64 user) = Throw format_error ->
  parseBase64 (base64 clothing) = Normal garment ->
  outcome_of (validateClothingSafety (base64 clothing)) w = Normal verdict ->
  gate_passes verdict = true ->
  run_handler (handleTryOn st) w st =
    with_outputs st ERROR None (Some (str "Invalid base64 string provided."))
  /\ backend_requests (trace (handleTryOn st) w) =
     [safety_request garment; recommendations_request garment].
Proof.
  intros Hu Hc Hbad Hgood Hv Hpass. unfold run_handler.
  rewrite (handleTryOn_passed st w user clothing verdict Hu Hc Hv Hpass).
  assert (Ht : outcome_of (generateTryOn (base64 user) (base64 clothing)
                             (instructions st) (selected_pose st)) w
               = Throw format_error).
  { now rewrite outcome_generateTryOn, Hbad. }
  destruct (fan_out_rejects st w user clothing garment format_error Hgood Ht)
    as (err & -> & Hmsg).
  split.
  - rewrite app_assoc with (l := trace (validateClothingSafety _) w).
    rewrite run_failing.
    + unfold message_or. rewrite Hmsg. reflexivity.
    + rewrite forallb_app. now rewrite gate_trace_adapter, fan_out_adapter.
  - rewrite !backend_requests_app.
    rewrite (gate_requests_wellformed _ garment w Hgood).
    unfold fan_out. rewrite trace_Promise_all3, !backend_requests_app.
    rewrite (recommendations_requests_wellformed _ garment w Hgood).
    destruct (malformed_image_requests (base64 user) (base64 clothing)
                (instructions st) (selected_pose st) w Hbad) as [-> ->].
    reflexivity.
Qed.

Lemma malformed_person_fails_after_the_gate_witness :
  backend_requests (trace (handleTryOn Scenario.faceless) (world all_fine)) =
  [safety_request garment_data; recommendations_request garment_data].
Proof.
  apply (malformed_person_fails_after_the_gate Scenario.faceless
           (world all_fine) Scenario.broken_person garment garment_data
           (Json.JObj [(str "valid", Json.JBool true)]));
    vm_compute; reflexivity.
Defined.

(** ** Clearing the model *)

(** X24. The button that clears the model also drops the snapshot captured from
    it: the garment is gone and the generation is disabled again. *)
Theorem clearing_the_model_drops_the_snapshot
    (st : AppState) (w : World) :
  truthy_text (clothingModelUrl st) = true ->
  let st' := step st ClearClothingClick w in
  clothingModelUrl st' = None /\ clothingImage st' = None /\
  isFormValid st' = false /\
  trace (handler_of st' GenerateClick) w = [] /\
  userImage st' = userImage st.
Proof.
  intros Hm. cbv zeta. unfold step, run_handler. simpl handler_of.
  rewrite Hm. unfold clearClothing. async. simpl fold_left.
  assert (Hv : forall u, isFormValid
            {| userImage := u; clothingImage := None;
               clothingModelUrl := None; instructions := instructions st;
               rotation := rotation st;
               useCustomRotation := useCustomRotation st;
               status := status st; result := result st;
               error := error st |} = false).
  { intros [u |]; reflexivity. }
  repeat split; try apply Hv.
  simpl handler_of. rewrite Hv. reflexivity.
Qed.

Lemma clearing_the_model_drops_the_snapshot_witness :
  clothingImage (step Scenario.modelled ClearClothingClick (world all_fine))
  = None.
Proof.
  apply (clearing_the_model_drops_the_snapshot Scenario.modelled
           (world all_fine)).
  reflexivity.
Defined.
